(** * cluster-capacity: the simulation control loop and the disk cache

    A shallow embedding of [pkg/framework/simulator.go] (the
    [ClusterCapacity] controller: [Bind], [Close], [Update], [nextPod],
    [Report], [Run]) and of [pkg/cache] (the [Cache] interface and its
    [diskCache] implementation), with the properties of the design
    document proved or refuted on the embedding.

    Conventions.
    - A Go [error] is carried by its message, which is what [%v] prints.
    - A Go [int] is a 64-bit two's complement integer, an [int32] a 32-bit
      one; both live in [Z] with the wrap-around written out.
    - A handler body that runs under one of the controller's mutexes, or
      that the engine runs one at a time, is one atomic state transformer.
    - A run-time panic is the [Panic] outcome of the code that panics; a
      goroutine parked in a send is part of the channel's state. *)

From stdpp Require Import base option list strings pretty gmap.
From Stdlib Require Import ZArith Lia.

Set Default Proof Using "Type".

(** ** Go primitives *)

Module Go.

(** Go's [error], by its message. *)
Definition error : Type := string.

(** Result of a piece of Go code that may panic. *)
Inductive outcome (A : Type) : Type :=
| Ret (a : A)
| Panic (msg : string).
Arguments Ret {A} a.
Arguments Panic {A} msg.

Definition obind {A B} (m : outcome A) (k : A → outcome B) : outcome B :=
  match m with
  | Ret a => k a
  | Panic msg => Panic msg
  end.

(** Two's complement wrap-around on [bits] bits. *)
Definition wrap (bits : Z) (z : Z) : Z :=
  ((z + 2 ^ (bits - 1)) `mod` 2 ^ bits - 2 ^ (bits - 1))%Z.

Definition int_min : Z := (- 2 ^ 63)%Z.
Definition int_max : Z := (2 ^ 63 - 1)%Z.
Definition is_int (z : Z) : Prop := (int_min ≤ z ≤ int_max)%Z.

(** [x + y] on [int]. *)
Definition int_add (x y : Z) : Z := wrap 64 (x + y).

(** The conversion [int32(x)]. *)
Definition int32 (x : Z) : Z := wrap 32 x.
Definition is_int32 (z : Z) : Prop := (- 2 ^ 31 ≤ z ≤ 2 ^ 31 - 1)%Z.

(** [fmt.Sprintf("%v", n)] for an integer: its decimal digits. *)
Definition fmt_int (n : Z) : string := pretty n.

(** An unbuffered channel of [struct{}]: whether it has been closed, how
    many send operations have been issued on it and how many values have
    been received from it. A send completes when a receive takes it;
    [ch_sent - ch_recv] senders are still parked. *)
Record chan : Type := Chan {
  ch_closed : bool;
  ch_sent : nat;
  ch_recv : nat;
}.

Definition make_chan : chan := Chan false 0 0.

(** [close(ch)]: closing a closed channel panics. With senders still
    parked on the channel the closer returns all the same and goes on; it
    is the parked senders that panic, each in its own goroutine. *)
Definition close (ch : chan) : outcome chan :=
  if ch_closed ch then Panic "close of closed channel"
  else Ret (Chan true (ch_sent ch) (ch_recv ch)).

(** The senders still parked on the channel. *)
Definition parked (ch : chan) : nat := ch_sent ch - ch_recv ch.

(** What becomes of a sender parked on the channel: once the channel is
    closed it panics. *)
Definition parked_sender (ch : chan) : option string :=
  if ch_closed ch && bool_decide (0 < parked ch) then Some "send on closed channel"
  else None.

(** [ch <- struct{}{}]. *)
Definition send (ch : chan) : outcome chan :=
  if ch_closed ch then Panic "send on closed channel"
  else Ret (Chan false (S (ch_sent ch)) (ch_recv ch)).

(** [<-ch] on an open channel: [None] while no sender is there (the
    receiver stays blocked). *)
Definition recv (ch : chan) : option chan :=
  if decide (ch_recv ch < ch_sent ch)
  then Some (Chan (ch_closed ch) (ch_sent ch) (S (ch_recv ch)))
  else None.

End Go.

Export Go.

Global Instance outcome_ret : MRet outcome := @Ret.
Global Instance outcome_bind : MBind outcome := λ A B k m, obind m k.

(** ** The Kubernetes API types the controller touches *)

Module metav1.

Record ObjectMeta : Type := {
  Name : string;
  Namespace : string;
  UID : string;
  Labels : option (gmap string string);
  (* a Go map: None is the nil map *)
  Annotations : option (gmap string string);
}.

(** [metav1.HasAnnotation]: [_, found := obj.Annotations[ann]]; a lookup
    in the nil map finds nothing. *)
Definition HasAnnotation (obj : ObjectMeta) (ann : string) : bool :=
  match Annotations obj with
  | Some m => bool_decide (is_Some (m !! ann))
  | None => false
  end.

End metav1.

Module corev1.

(** [PodConditionType], [ConditionStatus] and [PodPhase] are string
    types. *)
Definition PodScheduled : string := "PodScheduled".
Definition ConditionFalse : string := "False".
Definition PodRunning : string := "Running".
Definition DefaultSchedulerName : string := "default-scheduler".

Module PodCondition.
Record t : Type := mk {
  Type_ : string;
  Status : string;
  Reason : string;
  Message : string;
}.
End PodCondition.

Record Container : Type := {
  ContainerName : string;
  Image : string;
  Requests : gmap string Z;
}.

Record PodSpec : Type := {
  NodeName : string;
  SchedulerName : string;
  Containers : list Container;
}.

Record PodStatus : Type := {
  Phase : string;
  Conditions : list PodCondition.t;
}.

Record Pod : Type := {
  ObjectMeta : metav1.ObjectMeta;
  Spec : PodSpec;
  Status : PodStatus;
}.

(** [pod.DeepCopy()]: values have no sharing, the copy is the value. *)
Definition DeepCopy (p : Pod) : Pod := p.

Definition with_ObjectMeta (m : metav1.ObjectMeta) (p : Pod) : Pod :=
  {| ObjectMeta := m; Spec := Spec p; Status := Status p |}.
Definition with_Spec (s : PodSpec) (p : Pod) : Pod :=
  {| ObjectMeta := ObjectMeta p; Spec := s; Status := Status p |}.
Definition with_Status (s : PodStatus) (p : Pod) : Pod :=
  {| ObjectMeta := ObjectMeta p; Spec := Spec p; Status := s |}.

Definition set_NodeName (n : string) (p : Pod) : Pod :=
  with_Spec {| NodeName := n; SchedulerName := SchedulerName (Spec p);
               Containers := Containers (Spec p) |} p.
Definition set_SchedulerName (n : string) (p : Pod) : Pod :=
  with_Spec {| NodeName := NodeName (Spec p); SchedulerName := n;
               Containers := Containers (Spec p) |} p.
Definition set_Phase (ph : string) (p : Pod) : Pod :=
  with_Status {| Phase := ph; Conditions := Conditions (Status p) |} p.
Definition set_Name (n : string) (p : Pod) : Pod :=
  let m := ObjectMeta p in
  with_ObjectMeta {| metav1.Name := n; metav1.Namespace := metav1.Namespace m;
                     metav1.UID := metav1.UID m; metav1.Labels := metav1.Labels m;
                     metav1.Annotations := metav1.Annotations m |} p.
Definition set_UID (u : string) (p : Pod) : Pod :=
  let m := ObjectMeta p in
  with_ObjectMeta {| metav1.Name := metav1.Name m; metav1.Namespace := metav1.Namespace m;
                     metav1.UID := u; metav1.Labels := metav1.Labels m;
                     metav1.Annotations := metav1.Annotations m |} p.
Definition set_Annotations (a : option (gmap string string)) (p : Pod) : Pod :=
  let m := ObjectMeta p in
  with_ObjectMeta {| metav1.Name := metav1.Name m; metav1.Namespace := metav1.Namespace m;
                     metav1.UID := metav1.UID m; metav1.Labels := metav1.Labels m;
                     metav1.Annotations := a |} p.

End corev1.

(** The scheduler framework's [Status]: a nil [*Status] is success. *)
Module schedframework.

Inductive Code : Type := Success | Error | Unschedulable.

Record Status : Type := NewStatus {
  code : Code;
  message : string;
}.

End schedframework.

(** ** The collaborators the controller consumes *)

(** The synthetic cluster ([externalclientset.Interface], in the
    simulator a [fakeclientset]) together with the emulation strategy
    built over it by [strategy.NewPredictiveStrategy(client)]: the state
    of the store and the three operations the controller calls. *)
Class Cluster (C : Type) : Type := {
  (* fakeclientset.NewSimpleClientset() *)
  NewSimpleClientset : C;
  (* client.CoreV1().Pods(namespace).Get(name, metav1.GetOptions{}) *)
  pods_Get : C → string → string → corev1.Pod + error;
  (* client.CoreV1().Pods(pod.Namespace).Create(&pod) *)
  pods_Create : C → corev1.Pod → C * option error;
  (* strategy.Add(pod) *)
  strategy_Add : C → corev1.Pod → C * option error;
}.

(** ** pkg/framework/simulator.go *)

Definition podProvisioner : string := "cc.kubernetes.io/provisioned-by".

(** capture all scheduled pods with reason why the analysis could not
    continue *)
Record Status : Type := {
  Pods : list corev1.Pod;
  StopReason : string;
}.

(** The background task [Run] starts ([scheduler.Run(ctx)]) and the
    context it cancels. *)
Inductive task : Type := NotStarted | Running | Cancelled.

Section simulator.

Context {C : Type} `{!Cluster C}.

(** [ClusterCapacityReview] is declared in the report file of the
    package; [Report] touches [Spec.Replicas] only. *)
Context {ReviewSpecRest ReviewStatus : Type}.

Record ClusterCapacityReviewSpec : Type := {
  Replicas : Z;
  SpecRest : ReviewSpecRest;
}.

Record ClusterCapacityReview : Type := {
  ReviewSpec : ClusterCapacityReviewSpec;
  ReviewStatus_ : ReviewStatus;
}.

(** [GetReport(pods, status)], of the report file. *)
Context (GetReport : list corev1.Pod → Status → ClusterCapacityReview).

Record ClusterCapacity : Type := {
  externalkubeclient : C;
  (* the one scheduler of New, by its background task *)
  schedulers : task;
  informersStarted : bool;
  defaultSchedulerName : string;
  (* pod to schedule *)
  simulatedPod : corev1.Pod;
  lastSimulatedPod : option corev1.Pod;
  maxSimulated : Z;
  simulated : Z;
  status : Status;
  report : option ClusterCapacityReview;
  (* analysis limitation *)
  informerStopCh : chan;
  (* schedulers channel *)
  schedulerCh : chan;
  (* stop the analysis *)
  stop : chan;
  stopped : bool;
  closed : bool;
}.

Definition set_externalkubeclient (x : C) (c : ClusterCapacity) : ClusterCapacity :=
  {| externalkubeclient := x; schedulers := schedulers c;
     informersStarted := informersStarted c;
     defaultSchedulerName := defaultSchedulerName c;
     simulatedPod := simulatedPod c; lastSimulatedPod := lastSimulatedPod c;
     maxSimulated := maxSimulated c; simulated := simulated c;
     status := status c; report := report c;
     informerStopCh := informerStopCh c; schedulerCh := schedulerCh c;
     stop := stop c; stopped := stopped c; closed := closed c |}.

Definition set_schedulers (x : task) (c : ClusterCapacity) : ClusterCapacity :=
  {| externalkubeclient := externalkubeclient c; schedulers := x;
     informersStarted := informersStarted c;
     defaultSchedulerName := defaultSchedulerName c;
     simulatedPod := simulatedPod c; lastSimulatedPod := lastSimulatedPod c;
     maxSimulated := maxSimulated c; simulated := simulated c;
     status := status c; report := report c;
     informerStopCh := informerStopCh c; schedulerCh := schedulerCh c;
     stop := stop c; stopped := stopped c; closed := closed c |}.

Definition set_informersStarted (x : bool) (c : ClusterCapacity) : ClusterCapacity :=
  {| externalkubeclient := externalkubeclient c; schedulers := schedulers c;
     informersStarted := x;
     defaultSchedulerName := defaultSchedulerName c;
     simulatedPod := simulatedPod c; lastSimulatedPod := lastSimulatedPod c;
     maxSimulated := maxSimulated c; simulated := simulated c;
     status := status c; report := report c;
     informerStopCh := informerStopCh c; schedulerCh := schedulerCh c;
     stop := stop c; stopped := stopped c; closed := closed c |}.

Definition set_lastSimulatedPod (x : option corev1.Pod) (c : ClusterCapacity) : ClusterCapacity :=
  {| externalkubeclient := externalkubeclient c; schedulers := schedulers c;
     informersStarted := informersStarted c;
     defaultSchedulerName := defaultSchedulerName c;
     simulatedPod := simulatedPod c; lastSimulatedPod := x;
     maxSimulated := maxSimulated c; simulated := simulated c;
     status := status c; report := report c;
     informerStopCh := informerStopCh c; schedulerCh := schedulerCh c;
     stop := stop c; stopped := stopped c; closed := closed c |}.

Definition set_simulated (x : Z) (c : ClusterCapacity) : ClusterCapacity :=
  {| externalkubeclient := externalkubeclient c; schedulers := schedulers c;
     informersStarted := informersStarted c;
     defaultSchedulerName := defaultSchedulerName c;
     simulatedPod := simulatedPod c; lastSimulatedPod := lastSimulatedPod c;
     maxSimulated := maxSimulated c; simulated := x;
     status := status c; report := report c;
     informerStopCh := informerStopCh c; schedulerCh := schedulerCh c;
     stop := stop c; stopped := stopped c; closed := closed c |}.

Definition set_status (x : Status) (c : ClusterCapacity) : ClusterCapacity :=
  {| externalkubeclient := externalkubeclient c; schedulers := schedulers c;
     informersStarted := informersStarted c;
     defaultSchedulerName := defaultSchedulerName c;
     simulatedPod := simulatedPod c; lastSimulatedPod := lastSimulatedPod c;
     maxSimulated := maxSimulated c; simulated := simulated c;
     status := x; report := report c;
     informerStopCh := informerStopCh c; schedulerCh := schedulerCh c;
     stop := stop c; stopped := stopped c; closed := closed c |}.

Definition set_report (x : option ClusterCapacityReview) (c : ClusterCapacity) : ClusterCapacity :=
  {| externalkubeclient := externalkubeclient c; schedulers := schedulers c;
     informersStarted := informersStarted c;
     defaultSchedulerName := defaultSchedulerName c;
     simulatedPod := simulatedPod c; lastSimulatedPod := lastSimulatedPod c;
     maxSimulated := maxSimulated c; simulated := simulated c;
     status := status c; report := x;
     informerStopCh := informerStopCh c; schedulerCh := schedulerCh c;
     stop := stop c; stopped := stopped c; closed := closed c |}.

(** [Close] sets both channels and the flag together. *)
Definition set_closed_chans (inf sch : chan) (x : bool) (c : ClusterCapacity) : ClusterCapacity :=
  {| externalkubeclient := externalkubeclient c; schedulers := schedulers c;
     informersStarted := informersStarted c;
     defaultSchedulerName := defaultSchedulerName c;
     simulatedPod := simulatedPod c; lastSimulatedPod := lastSimulatedPod c;
     maxSimulated := maxSimulated c; simulated := simulated c;
     status := status c; report := report c;
     informerStopCh := inf; schedulerCh := sch;
     stop := stop c; stopped := stopped c; closed := x |}.

Definition set_stop (x : chan) (c : ClusterCapacity) : ClusterCapacity :=
  {| externalkubeclient := externalkubeclient c; schedulers := schedulers c;
     informersStarted := informersStarted c;
     defaultSchedulerName := defaultSchedulerName c;
     simulatedPod := simulatedPod c; lastSimulatedPod := lastSimulatedPod c;
     maxSimulated := maxSimulated c; simulated := simulated c;
     status := status c; report := report c;
     informerStopCh := informerStopCh c; schedulerCh := schedulerCh c;
     stop := x; stopped := stopped c; closed := closed c |}.

Definition set_stopped (x : bool) (c : ClusterCapacity) : ClusterCapacity :=
  {| externalkubeclient := externalkubeclient c; schedulers := schedulers c;
     informersStarted := informersStarted c;
     defaultSchedulerName := defaultSchedulerName c;
     simulatedPod := simulatedPod c; lastSimulatedPod := lastSimulatedPod c;
     maxSimulated := maxSimulated c; simulated := simulated c;
     status := status c; report := report c;
     informerStopCh := informerStopCh c; schedulerCh := schedulerCh c;
     stop := stop c; stopped := x; closed := closed c |}.

Definition set_StopReason (r : string) (c : ClusterCapacity) : ClusterCapacity :=
  set_status {| Pods := Pods (status c); StopReason := r |} c.

Definition append_Pods (p : corev1.Pod) (c : ClusterCapacity) : ClusterCapacity :=
  set_status {| Pods := Pods (status c) ++ [p]; StopReason := StopReason (status c) |} c.

Definition set_Replicas (n : Z) (r : ClusterCapacityReview) : ClusterCapacityReview :=
  {| ReviewSpec := {| Replicas := n; SpecRest := SpecRest (ReviewSpec r) |};
     ReviewStatus_ := ReviewStatus_ r |}.

(** [func (c *ClusterCapacity) Report() *ClusterCapacityReview] *)
Definition Report (c : ClusterCapacity) : ClusterCapacity * ClusterCapacityReview :=
  match report c with
  | None =>
      let pods := [] ++ [simulatedPod c] in
      let r := GetReport pods (status c) in
      let r := set_Replicas (int32 (maxSimulated c)) r in
      (set_report (Some r) c, r)
  | Some r => (c, r)
  end.

(** [func (c *ClusterCapacity) Close()], the body under [closedMux]. *)
Definition Close (c : ClusterCapacity) : outcome ClusterCapacity :=
  if closed c then mret c
  else
    sch ← close (schedulerCh c);
    inf ← close (informerStopCh c);
    mret (set_closed_chans inf sch true c).

(** [func (c *ClusterCapacity) nextPod() error]; [uid] is what
    [uuid.NewV4().String()] returns in this call. *)
Definition nextPod (c : ClusterCapacity) (uid : string) : ClusterCapacity * option error :=
  let pod := corev1.DeepCopy (simulatedPod c) in
  (* reset any node designation set *)
  let pod := corev1.set_NodeName "" pod in
  (* use simulated pod name with an index to construct the name *)
  let pod := corev1.set_Name
    (metav1.Name (corev1.ObjectMeta (simulatedPod c)) +:+ "-" +:+ fmt_int (simulated c)) pod in
  let pod := corev1.set_UID uid pod in
  let pod := corev1.set_SchedulerName (defaultSchedulerName c) pod in
  (* Add pod provisioner annotation *)
  let pod :=
    match metav1.Annotations (corev1.ObjectMeta pod) with
    | None => corev1.set_Annotations (Some ∅) pod
    | Some _ => pod
    end in
  (* Stores the scheduler name *)
  let pod := corev1.set_Annotations
    (Some (<[podProvisioner := defaultSchedulerName c]>
             (default ∅ (metav1.Annotations (corev1.ObjectMeta pod))))) pod in
  let c := set_simulated (int_add (simulated c) 1) c in
  let c := set_lastSimulatedPod (Some pod) c in
  let '(cl, err) := pods_Create (externalkubeclient c) pod in
  (set_externalkubeclient cl c, err).

(** [func (c *ClusterCapacity) Bind(ctx, state, p, nodeName, schedulerName)
    *framework.Status]. [ctx] and [state] are not read. [uid] is what
    [uuid.NewV4()] gives the [nextPod] call, if there is one. *)
Definition Bind (c : ClusterCapacity) (p : corev1.Pod) (nodeName schedulerName : string)
    (uid : string) : outcome (ClusterCapacity * option schedframework.Status) :=
  (* run the pod through strategy *)
  match pods_Get (externalkubeclient c)
          (metav1.Namespace (corev1.ObjectMeta p)) (metav1.Name (corev1.ObjectMeta p)) with
  | inr err =>
      mret (c, Some (schedframework.NewStatus schedframework.Error
                       ("Unable to bind: " +:+ err)))
  | inl pod =>
      let updatedPod := corev1.DeepCopy pod in
      let updatedPod := corev1.set_NodeName nodeName updatedPod in
      let updatedPod := corev1.set_Phase corev1.PodRunning updatedPod in
      let '(cl, aerr) := strategy_Add (externalkubeclient c) updatedPod in
      let c := set_externalkubeclient cl c in
      match aerr with
      | Some err =>
          mret (c, Some (schedframework.NewStatus schedframework.Error
                           ("Unable to recompute new cluster state: " +:+ err)))
      | None =>
          let c := append_Pods updatedPod c in
          if bool_decide (0 < maxSimulated c)%Z && bool_decide (maxSimulated c ≤ simulated c)%Z
          then
            let c := set_StopReason
              ("LimitReached: Maximum number of pods simulated: " +:+ fmt_int (maxSimulated c)) c in
            c ← Close c;
            st ← send (stop c);
            mret (set_stop st c, None)
          else
            (* all good, create another pod *)
            let '(c, nerr) := nextPod c uid in
            match nerr with
            | Some err =>
                mret (c, Some (schedframework.NewStatus schedframework.Error
                                 ("Unable to create next pod to schedule: " +:+ err)))
            | None => mret (c, None)
            end
      end
  end.

(** The condition [Update] stops on. *)
Definition terminal (pod : corev1.Pod) (podCondition : corev1.PodCondition.t) : bool :=
  let stop :=
    bool_decide (corev1.PodCondition.Type_ podCondition = corev1.PodScheduled)
    && bool_decide (corev1.PodCondition.Status podCondition = corev1.ConditionFalse)
    && bool_decide (corev1.PodCondition.Reason podCondition = "Unschedulable") in
  (* Only for pending pods provisioned by cluster-capacity *)
  stop && metav1.HasAnnotation (corev1.ObjectMeta pod) podProvisioner.

(** [func (c *ClusterCapacity) Update(pod, podCondition, schedulerName) error].
    The flag [stopped] is written under [stopMux] and read nowhere. *)
Definition Update (c : ClusterCapacity) (pod : corev1.Pod)
    (podCondition : corev1.PodCondition.t) (schedulerName : string)
    : outcome (ClusterCapacity * option error) :=
  if terminal pod podCondition then
    let c := set_StopReason
      (corev1.PodCondition.Reason podCondition +:+ ": "
         +:+ corev1.PodCondition.Message podCondition) c in
    c ← Close c;
    (* The Update function can be run more than once before any
       corresponding scheduler is closed. *)
    let c := set_stopped true c in
    st ← send (stop c);
    mret (set_stop st c, None)
  else mret (c, None).

(** The [FilterFunc] that [createScheduler] registers on the pod informer. *)
Definition FilterFunc (schedulerName : string) (obj : corev1.Pod) : bool :=
  bool_decide (corev1.SchedulerName (corev1.Spec obj) = schedulerName).

(** The [UpdateFunc] of the same handler: [Update] for every condition of
    type [PodScheduled], in order. *)
Fixpoint UpdateFunc_range (c : ClusterCapacity) (schedulerName : string) (pod : corev1.Pod)
    (conditions : list corev1.PodCondition.t) : outcome ClusterCapacity :=
  match conditions with
  | [] => mret c
  | podCondition :: rest =>
      c ← (if bool_decide (corev1.PodCondition.Type_ podCondition = corev1.PodScheduled)
           then '(c, _) ← Update c pod podCondition schedulerName; mret c
           else mret c);
      UpdateFunc_range c schedulerName pod rest
  end.

Definition UpdateFunc (c : ClusterCapacity) (schedulerName : string)
    (oldObj newObj : corev1.Pod) : outcome ClusterCapacity :=
  UpdateFunc_range c schedulerName newObj (corev1.Conditions (corev1.Status newObj)).

(** [cache.FilteringResourceEventHandler.OnUpdate]: the update handler runs
    when both objects pass the filter; the add and delete handlers are not
    set. *)
Definition OnUpdate (c : ClusterCapacity) (schedulerName : string)
    (oldObj newObj : corev1.Pod) : outcome ClusterCapacity :=
  if FilterFunc schedulerName newObj && FilterFunc schedulerName oldObj
  then UpdateFunc c schedulerName oldObj newObj
  else mret c.

(** [func New(kubeSchedulerConfig, simulatedPod, maxPods, cache)], on the
    path where the scheduler is created. *)
Definition New (simulatedPod : corev1.Pod) (maxPods : Z) : ClusterCapacity :=
  {| externalkubeclient := NewSimpleClientset;
     schedulers := NotStarted;
     informersStarted := false;
     defaultSchedulerName := corev1.DefaultSchedulerName;
     simulatedPod := simulatedPod;
     lastSimulatedPod := None;
     maxSimulated := maxPods;
     simulated := 0;
     status := {| Pods := []; StopReason := "" |};
     report := None;
     informerStopCh := make_chan;
     schedulerCh := make_chan;
     stop := make_chan;
     stopped := false;
     closed := false |}.

(** What the two background tasks do to the controller while [Run] waits:
    the engine calls the bind plugin, the informer reports a pod update. *)
Inductive event : Type :=
| BindCall (p : corev1.Pod) (nodeName : string) (uid : string)
| PodUpdated (oldObj newObj : corev1.Pod).

Definition is_BindCall (e : event) : bool :=
  match e with BindCall _ _ _ => true | PodUpdated _ _ => false end.

(** One event. [New] creates the one scheduler under the name
    [corev1.DefaultSchedulerName], with the bind plugin and the informer
    handler of [createScheduler]. Neither [Bind] nor the handler reads
    [closed] or the two channels [Close] closes: a bind or a pod update
    under way is delivered whatever their state. The result carries the
    bind status the engine gets back. *)
Definition deliver (c : ClusterCapacity) (e : event)
    : outcome (ClusterCapacity * list (option schedframework.Status)) :=
  match e with
  | BindCall p nodeName uid =>
      '(c, st) ← Bind c p nodeName corev1.DefaultSchedulerName uid;
      mret (c, [st])
  | PodUpdated oldObj newObj =>
      c ← OnUpdate c corev1.DefaultSchedulerName oldObj newObj;
      mret (c, [])
  end.

Fixpoint engine (c : ClusterCapacity) (evs : list event)
    : outcome (ClusterCapacity * list (option schedframework.Status)) :=
  match evs with
  | [] => mret (c, [])
  | e :: evs =>
      '(c, l1) ← deliver c e;
      '(c, l2) ← engine c evs;
      mret (c, l1 ++ l2)
  end.

(** How far [Run] got. *)
Inductive run_result : Type :=
| Returned (err : option error)
| Waiting.

(** The part of [Run] up to the first [nextPod]. The informers and the
    scheduler run from their start on: [early] are the events that reach
    the controller during the sleep of 100 ms, before instance 0 is
    created (a snapshot with pending pods gives the scheduler work at
    once). *)
Definition Run_start (c : ClusterCapacity) (uid : string) (early : list event)
    : outcome (ClusterCapacity * option error) :=
  (* Start all informers. *)
  let c := set_informersStarted true c in
  (* go scheduler.Run(ctx) *)
  let c := set_schedulers Running c in
  (* time.Sleep(100 * time.Millisecond) *)
  '(c, _) ← engine c early;
  (* create the first simulated pod *)
  mret (nextPod c uid).

(** [func (c *ClusterCapacity) Run() error], with the events that reach the
    controller before the first [nextPod] ([early]) and between the first
    [nextPod] and the receive on [stop] ([evs]). When no signal is there
    after the events, [Run] is still blocked in the receive. *)
Definition Run (c : ClusterCapacity) (uid : string) (early evs : list event)
    : outcome (ClusterCapacity * run_result) :=
  '(c, err) ← Run_start c uid early;
  match err with
  | Some err =>
      let c := set_schedulers Cancelled c in
      c ← Close c;
      st ← close (stop c);
      mret (set_stop st c,
            Returned (Some ("Unable to create next pod to schedule: " +:+ err)))
  | None =>
      '(c, _) ← engine c evs;
      match recv (stop c) with
      | None => mret (c, Waiting)
      | Some st =>
          let c := set_stop st c in
          let c := set_schedulers Cancelled c in
          st ← close (stop c);
          mret (set_stop st c, Returned None)
      end
  end.

(** [SyncResources] fills the store through the client and touches nothing
    else of the controller: the controller [Run] is called on is the one
    [New] built, over some store [cl]. *)
Definition ready (cl : C) (simulatedPod : corev1.Pod) (maxPods : Z) : ClusterCapacity :=
  set_externalkubeclient cl (New simulatedPod maxPods).

(** The two channels that only [Close] closes go with the flag [closed],
    and nothing is ever sent on them. *)
Definition lifecycle (c : ClusterCapacity) : Prop :=
  schedulerCh c = Chan (closed c) 0 0 ∧ informerStopCh c = Chan (closed c) 0 0.

(** The state [Close] leaves. *)
Definition shut (c : ClusterCapacity) : ClusterCapacity :=
  set_closed_chans (Chan true 0 0) (Chan true 0 0) true c.

(** The stop reason [Bind] records at the limit. *)
Definition LimitReached (n : Z) : string :=
  "LimitReached: Maximum number of pods simulated: " +:+ fmt_int n.

(** The names [nextPod] has given out so far: the template's name with
    0, ..., [simulated - 1]. *)
Definition seeded (c : ClusterCapacity) : list string :=
  (λ i : nat, metav1.Name (corev1.ObjectMeta (simulatedPod c)) +:+ "-"
                +:+ fmt_int (Z.of_nat i)) <$> seq 0 (Z.to_nat (simulated c)).

(** Whether [Bind] gets as far as recording the placement: the store has
    the pod and the strategy takes it. *)
Definition places (c : ClusterCapacity) (p : corev1.Pod) (nodeName : string) : bool :=
  match pods_Get (externalkubeclient c)
          (metav1.Namespace (corev1.ObjectMeta p)) (metav1.Name (corev1.ObjectMeta p)) with
  | inr _ => false
  | inl pod =>
      let updatedPod := corev1.DeepCopy pod in
      let updatedPod := corev1.set_NodeName nodeName updatedPod in
      let updatedPod := corev1.set_Phase corev1.PodRunning updatedPod in
      match (strategy_Add (externalkubeclient c) updatedPod).2 with
      | Some _ => false
      | None => true
      end
  end.

(** An engine that has the instances of the run to work on and nothing
    else, as on a snapshot without pending pods: whatever it binds is an
    instance [nextPod] has created (the template's namespace, a name
    given out) and one it has not placed already. [placed] holds the names
    placed so far. The informer may report any update. *)
Fixpoint trials (c : ClusterCapacity) (placed : list string) (evs : list event) : bool :=
  match evs with
  | [] => true
  | e :: evs =>
      match e with
      | BindCall p nodeName _ =>
          bool_decide (metav1.Namespace (corev1.ObjectMeta p)
                         = metav1.Namespace (corev1.ObjectMeta (simulatedPod c)))
          && bool_decide (metav1.Name (corev1.ObjectMeta p) ∈ seeded c)
          && bool_decide (metav1.Name (corev1.ObjectMeta p) ∉ placed)
      | PodUpdated _ _ => true
      end
      && match deliver c e with
         | Ret (c', _) =>
             trials c'
               match e with
               | BindCall p nodeName _ =>
                   if places c p nodeName then metav1.Name (corev1.ObjectMeta p) :: placed
                   else placed
               | PodUpdated _ _ => placed
               end evs
         | Panic _ => true
         end
  end.

(** What holds of the controller in such a run under the limit [n]: the
    serial counter stays within the limit, and there are as many
    placements as names placed, which are distinct names given out. *)
Definition bounded (n : Z) (placed : list string) (c : ClusterCapacity) : Prop :=
  maxSimulated c = n ∧ lifecycle c ∧ ch_closed (stop c) = false ∧
  (0 ≤ simulated c ≤ n)%Z ∧
  length (Pods (status c)) = length placed ∧
  NoDup placed ∧ placed ⊆ seeded c.

(** The same while every instance so far was accepted: one instance is in
    flight until the limit stops the run. *)
Definition accepting (n : Z) (placed : list string) (c : ClusterCapacity) : Prop :=
  bounded n placed c ∧
  if closed c then
    Z.of_nat (length (Pods (status c))) = n ∧ simulated c = n ∧
    StopReason (status c) = LimitReached n ∧ stop c = Chan false 1 0
  else
    (Z.of_nat (length (Pods (status c))) + 1 = simulated c)%Z ∧
    StopReason (status c) = "" ∧ stop c = make_chan.

(** [n] calls of [Close], one after the other. *)
Fixpoint Close_times (n : nat) (c : ClusterCapacity) : outcome ClusterCapacity :=
  match n with
  | O => mret c
  | S n => c ← Close c; Close_times n c
  end.

(** One [nextPod] per identifier, with the instances it creates, in order. *)
Fixpoint seeds (c : ClusterCapacity) (uids : list string)
    : ClusterCapacity * list corev1.Pod :=
  match uids with
  | [] => (c, [])
  | uid :: uids =>
      let '(c, _) := nextPod c uid in
      let '(c', ps) := seeds c uids in
      (c', option_list (lastSimulatedPod c) ++ ps)
  end.

(** A run in which the engine accepts every instance: nothing reaches the
    controller before instance 0 is created, then the engine only binds,
    and every bind returns the nil status. *)
Definition all_accepted (c : ClusterCapacity) (uid : string) (evs : list event) : Prop :=
  ∃ c1 c2 log,
    forallb is_BindCall evs = true ∧
    Run_start c uid [] = Ret (c1, None) ∧
    engine c1 evs = Ret (c2, log) ∧
    Forall (λ st, st = None) log.

End simulator.

Arguments ClusterCapacity : clear implicits.
Arguments ClusterCapacityReview : clear implicits.
Arguments ClusterCapacityReviewSpec : clear implicits.

(** ** pkg/cache *)

Module cache.

(** The part of the operating system the disk cache uses: the files by
    path, and the paths the process may not open. *)
Record filesystem : Type := {
  files : gmap string (list Byte.byte);
  directories : gset string;
  denied : gset string;
}.

(** [os.MkdirAll(directory, os.ModePerm)] *)
Definition os_MkdirAll (fs : filesystem) (directory : string) : filesystem * option error :=
  if decide (directory ∈ denied fs) then (fs, Some "permission denied")
  else ({| files := files fs; directories := {[directory]} ∪ directories fs;
           denied := denied fs |}, None).

(** [os.Create(filename)]: the file is created or truncated. *)
Definition os_Create (fs : filesystem) (filename : string) : filesystem * option error :=
  if decide (filename ∈ denied fs) then (fs, Some "permission denied")
  else ({| files := <[filename := []]> (files fs); directories := directories fs;
           denied := denied fs |}, None).

(** [file.Write(data)] on a file just opened by [os.Create]. *)
Definition file_Write (fs : filesystem) (filename : string) (data : list Byte.byte)
    : filesystem * option error :=
  match files fs !! filename with
  | Some old =>
      ({| files := <[filename := old ++ data]> (files fs); directories := directories fs;
          denied := denied fs |}, None)
  | None => (fs, Some "file already closed")
  end.

(** [os.Open(filename)] followed by [ioutil.ReadAll(file)]. *)
Definition os_Open (fs : filesystem) (filename : string) : option error :=
  if decide (filename ∈ denied fs) then Some "permission denied"
  else if decide (is_Some (files fs !! filename)) then None
  else Some "no such file or directory".

Definition ioutil_ReadAll (fs : filesystem) (filename : string) : list Byte.byte + error :=
  match files fs !! filename with
  | Some data => inl data
  | None => inr "file already closed"
  end.

(** [type Cache interface], over the state [W] its methods act on. *)
Class Cache (T W : Type) : Type := {
  Get : T → string → W → list Byte.byte + error;
  Set_ : T → string → list Byte.byte → W → W * option error;
  Clean : T → string → W → W * option error;
}.

Record diskCache : Type := {
  directory : string;
}.

Section disk.

(** [hex.EncodeToString] of the SHA-1 digest, and [path.Join]. *)
Context (sha1_hex : string → string) (path_Join : string → string → string).

(** [func NewDiskCache(directory string) (Cache, error)] *)
Definition NewDiskCache (directory : string) (fs : filesystem)
    : filesystem * (diskCache + error) :=
  (* Create directory *)
  let '(fs, err) := os_MkdirAll fs directory in
  match err with
  | Some err =>
      (fs, inr ("unable to create directory '" +:+ directory +:+ "': " +:+ err))
  | None => (fs, inl {| directory := directory |})
  end.

Definition buildFileName (d : diskCache) (key : string) : string :=
  path_Join (directory d) (sha1_hex key).

Definition diskCache_Get (d : diskCache) (key : string) (fs : filesystem)
    : list Byte.byte + error :=
  let filename := buildFileName d key in
  match os_Open fs filename with
  | Some err => inr ("unable to open file: " +:+ err)
  | None =>
      match ioutil_ReadAll fs filename with
      | inr err => inr ("unable to read file: " +:+ err)
      | inl data => inl data
      end
  end.

Definition diskCache_Set (d : diskCache) (key : string) (data : list Byte.byte)
    (fs : filesystem) : filesystem * option error :=
  let filename := buildFileName d key in
  let '(fs, err) := os_Create fs filename in
  match err with
  | Some err => (fs, Some ("unable to create file: " +:+ err))
  | None =>
      let '(fs, err) := file_Write fs filename data in
      match err with
      | Some err => (fs, Some ("unable to write items to file: " +:+ err))
      | None => (fs, None)
      end
  end.

Definition diskCache_Clean (d : diskCache) (key : string) (fs : filesystem)
    : filesystem * option error :=
  (fs, None).

#[local] Instance diskCache_Cache : Cache diskCache filesystem := {
  Get := diskCache_Get;
  Set_ := diskCache_Set;
  Clean := diskCache_Clean;
}.

End disk.

End cache.

(** ** A small in-memory cluster

    A stand-in for the fake clientset with the predictive strategy over it,
    for running the controller on examples: pods by namespace and name,
    and the nodes a pod can be placed on. *)

Module memcluster.

Record store : Type := {
  pods : gmap (string * string) corev1.Pod;
  nodes : gset string;
}.

Definition key (p : corev1.Pod) : string * string :=
  (metav1.Namespace (corev1.ObjectMeta p), metav1.Name (corev1.ObjectMeta p)).

Definition get (s : store) (namespace name : string) : corev1.Pod + error :=
  match pods s !! (namespace, name) with
  | Some p => inl p
  | None => inr ("pods " +:+ name +:+ " not found")
  end.

Definition create (s : store) (p : corev1.Pod) : store * option error :=
  match pods s !! key p with
  | Some _ => (s, Some ("pods " +:+ metav1.Name (corev1.ObjectMeta p) +:+ " already exists"))
  | None => ({| pods := <[key p := p]> (pods s); nodes := nodes s |}, None)
  end.

(** The pod is updated in place when its node is known. *)
Definition add (s : store) (p : corev1.Pod) : store * option error :=
  if decide (corev1.NodeName (corev1.Spec p) ∈ nodes s)
  then ({| pods := <[key p := p]> (pods s); nodes := nodes s |}, None)
  else (s, Some ("node " +:+ corev1.NodeName (corev1.Spec p) +:+ " not found")).

#[global] Instance store_Cluster : Cluster store := {
  NewSimpleClientset := {| pods := ∅; nodes := ∅ |};
  pods_Get := get;
  pods_Create := create;
  strategy_Add := add;
}.

(** A one-container template named web. *)
Definition web : corev1.Pod :=
  {| corev1.ObjectMeta :=
       {| metav1.Name := "web"; metav1.Namespace := "default"; metav1.UID := "";
          metav1.Labels := None; metav1.Annotations := None |};
     corev1.Spec :=
       {| corev1.NodeName := "node-9"; corev1.SchedulerName := "";
          corev1.Containers :=
            [ {| corev1.ContainerName := "web"; corev1.Image := "nginx";
                 corev1.Requests := {["cpu" := 100%Z]} |} ] |};
     corev1.Status := {| corev1.Phase := "Pending"; corev1.Conditions := [] |} |}.

(** A cluster of one node, after the resources are synced. *)
Definition one_node : store := {| pods := ∅; nodes := {["node-1"]} |}.

End memcluster.

(** The controller over the in-memory cluster, and the events of its runs. *)

Module example.

Definition review : Type := ClusterCapacityReview unit (list corev1.Pod * Status).

(** A report builder that keeps what it is given. *)
Definition GetReport (pods : list corev1.Pod) (st : Status) : review :=
  {| ReviewSpec := {| Replicas := 0; SpecRest := () |}; ReviewStatus_ := (pods, st) |}.

Definition controller (cl : memcluster.store) (maxPods : Z)
    : ClusterCapacity memcluster.store unit (list corev1.Pod * Status) :=
  ready cl memcluster.web maxPods.

(** The engine binds instance [i] to the node. *)
Definition bind (i : Z) : event :=
  BindCall (corev1.set_Name ("web-" +:+ fmt_int i) memcluster.web) "node-1"
    ("uid-" +:+ fmt_int (i + 1)).

Definition unschedulable (msg : string) : corev1.PodCondition.t :=
  corev1.PodCondition.mk corev1.PodScheduled corev1.ConditionFalse "Unschedulable" msg.

(** Instance [i] as the store has it once the engine has found no node. *)
Definition rejected (i : Z) (msg : string) : corev1.Pod :=
  {| corev1.ObjectMeta :=
       {| metav1.Name := "web-" +:+ fmt_int i; metav1.Namespace := "default";
          metav1.UID := "uid-" +:+ fmt_int i;
          metav1.Labels := None;
          metav1.Annotations := Some {[podProvisioner := corev1.DefaultSchedulerName]} |};
     corev1.Spec :=
       {| corev1.NodeName := ""; corev1.SchedulerName := corev1.DefaultSchedulerName;
          corev1.Containers := corev1.Containers (corev1.Spec memcluster.web) |};
     corev1.Status :=
       {| corev1.Phase := "Pending"; corev1.Conditions := [unschedulable msg] |} |}.

(** The informer reports that instance [i] was found unschedulable. *)
Definition reject (i : Z) (msg : string) : event :=
  PodUpdated (rejected i "") (rejected i msg).


(** The controller of a run once instance 0 is created and the events
    have reached it. *)
Definition after (maxPods : Z) (evs : list event)
    : ClusterCapacity memcluster.store unit (list corev1.Pod * Status) :=
  let c0 := controller memcluster.one_node maxPods in
  match Run_start c0 "uid-0" [] with
  | Ret (c1, _) =>
      match engine c1 evs with
      | Ret (c, _) => c
      | Panic _ => c1
      end
  | Panic _ => c0
  end.

(** A pod of another workload that no node has yet: the snapshot was
    taken before the scheduler of the cluster got to it. *)
Definition pending : corev1.Pod :=
  corev1.set_SchedulerName corev1.DefaultSchedulerName
    (corev1.set_NodeName "" (corev1.set_Name "db" memcluster.web)).

(** The cluster of one node with that pod, after the resources are synced. *)
Definition snapshot : memcluster.store :=
  {| memcluster.pods := {[("default", "db") := pending]};
     memcluster.nodes := {["node-1"]} |}.

(** The names of the placements, in order. *)
Definition placement_names (c : ClusterCapacity memcluster.store unit (list corev1.Pod * Status))
    : list string :=
  (λ p, metav1.Name (corev1.ObjectMeta p)) <$> Pods (status c).

(** A file system with the cache directory, and the two path functions
    standing for the hash and the join. *)
Definition disk : cache.filesystem :=
  {| cache.files := ∅; cache.directories := {["/tmp/cc"]}; cache.denied := ∅ |}.

Definition hash (key : string) : string := "sha1-" +:+ key.

Definition join (dir name : string) : string := dir +:+ "/" +:+ name.

Definition bytes : list Byte.byte := [Byte.x7b; Byte.x7d].

End example.

(** ** The rest of the simulator: syncing the resources *)

(** Equality of pods, for [reflect.DeepEqual]. *)
#[global] Instance ObjectMeta_eq_dec : EqDecision metav1.ObjectMeta.
Proof. solve_decision. Defined.
#[global] Instance PodCondition_eq_dec : EqDecision corev1.PodCondition.t.
Proof. solve_decision. Defined.
#[global] Instance Container_eq_dec : EqDecision corev1.Container.
Proof. solve_decision. Defined.
#[global] Instance PodSpec_eq_dec : EqDecision corev1.PodSpec.
Proof. solve_decision. Defined.
#[global] Instance PodStatus_eq_dec : EqDecision corev1.PodStatus.
Proof. solve_decision. Defined.
#[global] Instance Pod_eq_dec : EqDecision corev1.Pod.
Proof. solve_decision. Defined.

(** A Go slice: [None] is the nil slice, which [reflect.DeepEqual] tells
    from the empty one; a [range] over either runs no iteration. *)
Definition slice (A : Type) : Type := option (list A).

Definition range {A} (s : slice A) : list A := default [] s.

(** The kinds of objects that are copied besides pods; their types are
    declared in the Kubernetes API packages. *)
Class Kinds : Type := {
  Node : Type;
  Service : Type;
  PersistentVolumeClaim : Type;
  ReplicationController : Type;
  PodDisruptionBudget : Type;
  ReplicaSet : Type;
  StatefulSet : Type;
  StorageClass : Type;
  Node_eq_dec :: EqDecision Node;
  Service_eq_dec :: EqDecision Service;
  PersistentVolumeClaim_eq_dec :: EqDecision PersistentVolumeClaim;
  ReplicationController_eq_dec :: EqDecision ReplicationController;
  PodDisruptionBudget_eq_dec :: EqDecision PodDisruptionBudget;
  ReplicaSet_eq_dec :: EqDecision ReplicaSet;
  StatefulSet_eq_dec :: EqDecision StatefulSet;
  StorageClass_eq_dec :: EqDecision StorageClass;
}.

Section resources.

Context `{Kinds}.

Record resources : Type := {
  PodItems : slice corev1.Pod;
  NodeItems : slice Node;
  SVCItems : slice Service;
  PVCItems : slice PersistentVolumeClaim;
  RCItems : slice ReplicationController;
  PDBItems : slice PodDisruptionBudget;
  RSItems : slice ReplicaSet;
  SSItems : slice StatefulSet;
  SCItems : slice StorageClass;
}.

(** The zero value [resources{}]. *)
Definition resources_zero : resources :=
  {| PodItems := None; NodeItems := None; SVCItems := None; PVCItems := None;
     RCItems := None; PDBItems := None; RSItems := None; SSItems := None;
     SCItems := None |}.

#[global] Instance resources_eq_dec : EqDecision resources.
Proof. solve_decision. Defined.

(** [reflect.DeepEqual] on two values of type [resources]. *)
Definition DeepEqual (x y : resources) : bool := bool_decide (x = y).

(** The [Create] calls of the synthetic cluster for the other kinds
    ([CoreV1().Nodes().Create(&item)] and so on; the namespaced ones take
    the namespace from the item). *)
Class Objects (C : Type) : Type := {
  nodes_Create : C → Node → C * option error;
  services_Create : C → Service → C * option error;
  persistentvolumeclaims_Create : C → PersistentVolumeClaim → C * option error;
  replicationcontrollers_Create : C → ReplicationController → C * option error;
  poddisruptionbudgets_Create : C → PodDisruptionBudget → C * option error;
  replicasets_Create : C → ReplicaSet → C * option error;
  statefulsets_Create : C → StatefulSet → C * option error;
  storageclasses_Create : C → StorageClass → C * option error;
}.

(** The [List] calls on the cluster under analysis
    ([client.CoreV1().Pods(metav1.NamespaceAll).List(metav1.ListOptions{})]
    and so on), each giving the [Items] of the list or an error. *)
Class APIServer (A : Type) : Type := {
  pods_List : A → slice corev1.Pod + error;
  nodes_List : A → slice Node + error;
  services_List : A → slice Service + error;
  persistentvolumeclaims_List : A → slice PersistentVolumeClaim + error;
  replicationcontrollers_List : A → slice ReplicationController + error;
  poddisruptionbudgets_List : A → slice PodDisruptionBudget + error;
  replicasets_List : A → slice ReplicaSet + error;
  statefulsets_List : A → slice StatefulSet + error;
  storageclasses_List : A → slice StorageClass + error;
}.

(** The assignments [res.PodItems = pods.Items] and the like. *)
Definition set_PodItems (x : slice corev1.Pod) (res : resources) : resources :=
  {| PodItems := x; NodeItems := NodeItems res; SVCItems := SVCItems res;
     PVCItems := PVCItems res; RCItems := RCItems res; PDBItems := PDBItems res;
     RSItems := RSItems res; SSItems := SSItems res; SCItems := SCItems res |}.
Definition set_NodeItems (x : slice Node) (res : resources) : resources :=
  {| PodItems := PodItems res; NodeItems := x; SVCItems := SVCItems res;
     PVCItems := PVCItems res; RCItems := RCItems res; PDBItems := PDBItems res;
     RSItems := RSItems res; SSItems := SSItems res; SCItems := SCItems res |}.
Definition set_SVCItems (x : slice Service) (res : resources) : resources :=
  {| PodItems := PodItems res; NodeItems := NodeItems res; SVCItems := x;
     PVCItems := PVCItems res; RCItems := RCItems res; PDBItems := PDBItems res;
     RSItems := RSItems res; SSItems := SSItems res; SCItems := SCItems res |}.
Definition set_PVCItems (x : slice PersistentVolumeClaim) (res : resources) : resources :=
  {| PodItems := PodItems res; NodeItems := NodeItems res; SVCItems := SVCItems res;
     PVCItems := x; RCItems := RCItems res; PDBItems := PDBItems res; RSItems := RSItems res;
     SSItems := SSItems res; SCItems := SCItems res |}.
Definition set_RCItems (x : slice ReplicationController) (res : resources) : resources :=
  {| PodItems := PodItems res; NodeItems := NodeItems res; SVCItems := SVCItems res;
     PVCItems := PVCItems res; RCItems := x; PDBItems := PDBItems res; RSItems := RSItems res;
     SSItems := SSItems res; SCItems := SCItems res |}.
Definition set_PDBItems (x : slice PodDisruptionBudget) (res : resources) : resources :=
  {| PodItems := PodItems res; NodeItems := NodeItems res; SVCItems := SVCItems res;
     PVCItems := PVCItems res; RCItems := RCItems res; PDBItems := x; RSItems := RSItems res;
     SSItems := SSItems res; SCItems := SCItems res |}.
Definition set_RSItems (x : slice ReplicaSet) (res : resources) : resources :=
  {| PodItems := PodItems res; NodeItems := NodeItems res; SVCItems := SVCItems res;
     PVCItems := PVCItems res; RCItems := RCItems res; PDBItems := PDBItems res;
     RSItems := x; SSItems := SSItems res; SCItems := SCItems res |}.
Definition set_SSItems (x : slice StatefulSet) (res : resources) : resources :=
  {| PodItems := PodItems res; NodeItems := NodeItems res; SVCItems := SVCItems res;
     PVCItems := PVCItems res; RCItems := RCItems res; PDBItems := PDBItems res;
     RSItems := RSItems res; SSItems := x; SCItems := SCItems res |}.
Definition set_SCItems (x : slice StorageClass) (res : resources) : resources :=
  {| PodItems := PodItems res; NodeItems := NodeItems res; SVCItems := SVCItems res;
     PVCItems := PVCItems res; RCItems := RCItems res; PDBItems := PDBItems res;
     RSItems := RSItems res; SSItems := SSItems res; SCItems := x |}.

(** [func getResourcesFromAPIServer(client) (resources, error)]: on an
    error the lists read so far are returned with it. *)
Definition getResourcesFromAPIServer {A} `{!APIServer A} (client : A)
    : resources * option error :=
  let res := resources_zero in
  match pods_List client with
  | inr err => (res, Some ("unable to list pods: " +:+ err))
  | inl pods =>
  let res := set_PodItems pods res in
  match nodes_List client with
  | inr err => (res, Some ("unable to list nodes: " +:+ err))
  | inl nodes =>
  let res := set_NodeItems nodes res in
  match services_List client with
  | inr err => (res, Some ("unable to list services: " +:+ err))
  | inl svcs =>
  let res := set_SVCItems svcs res in
  match persistentvolumeclaims_List client with
  | inr err => (res, Some ("unable to list pvcs: " +:+ err))
  | inl pvcs =>
  let res := set_PVCItems pvcs res in
  match replicationcontrollers_List client with
  | inr err => (res, Some ("unable to list RCs: " +:+ err))
  | inl rcs =>
  let res := set_RCItems rcs res in
  match poddisruptionbudgets_List client with
  | inr err => (res, Some ("unable to list PDBs: " +:+ err))
  | inl pdbs =>
  let res := set_PDBItems pdbs res in
  match replicasets_List client with
  | inr err => (res, Some ("unable to list replicas sets: " +:+ err))
  | inl replicaSetItems =>
  let res := set_RSItems replicaSetItems res in
  match statefulsets_List client with
  | inr err => (res, Some ("unable to list stateful sets: " +:+ err))
  | inl statefulSetItems =>
  let res := set_SSItems statefulSetItems res in
  match storageclasses_List client with
  | inr err => (res, Some ("unable to list storage classes: " +:+ err))
  | inl storageClassesItems =>
  let res := set_SCItems storageClassesItems res in
  (res, None)
  end end end end end end end end end.

End resources.

Section sync.

Context `{Kinds}.
Context {C : Type} `{!Cluster C} `{!Objects C} {ReviewSpecRest ReviewStatus : Type}.
Context {A : Type} `{!APIServer A}.
Context {T W : Type} `{!cache.Cache T W}.

(** [json.Marshal(&res)], and [json.Unmarshal(data, &res)] into the zero
    value: what is left in [res], and the error. *)
Context (json_Marshal : resources → list Byte.byte + error).
Context (json_Unmarshal : list Byte.byte → resources * option error).

(** One of the loops of [FillWithResources]: [Create] for each item, up
    to the first error, which is returned under the text of the loop. *)
Fixpoint copy_items {X : Type} (create : C → X → C * option error) (text : string)
    (items : list X) (cl : C) : C * option error :=
  match items with
  | [] => (cl, None)
  | item :: items =>
      let '(cl, err) := create cl item in
      match err with
      | Some err => (cl, Some (text +:+ err))
      | None => copy_items create text items cl
      end
  end.

(** The next loop runs when the one before returned no error. *)
Definition and_then (r : C * option error) (k : C → C * option error) : C * option error :=
  match r with
  | (cl, None) => k cl
  | (cl, Some err) => (cl, Some err)
  end.

(** [func (c *ClusterCapacity) FillWithResources(res resources) error] *)
Definition FillWithResources (c : ClusterCapacity C ReviewSpecRest ReviewStatus)
    (res : resources) : ClusterCapacity C ReviewSpecRest ReviewStatus * option error :=
  (* Fill into resources thru externalkubeclient *)
  let r :=
    and_then (copy_items pods_Create "unable to copy pod: "
                (range (PodItems res)) (externalkubeclient c)) (λ cl,
    and_then (copy_items nodes_Create "unable to copy node: "
                (range (NodeItems res)) cl) (λ cl,
    and_then (copy_items services_Create "unable to copy service: "
                (range (SVCItems res)) cl) (λ cl,
    and_then (copy_items persistentvolumeclaims_Create "unable to copy pvc: "
                (range (PVCItems res)) cl) (λ cl,
    and_then (copy_items replicationcontrollers_Create "unable to copy RC: "
                (range (RCItems res)) cl) (λ cl,
    and_then (copy_items poddisruptionbudgets_Create "unable to copy PDB: "
                (range (PDBItems res)) cl) (λ cl,
    and_then (copy_items replicasets_Create "unable to copy replica set: "
                (range (RSItems res)) cl) (λ cl,
    and_then (copy_items statefulsets_Create "unable to copy stateful set: "
                (range (SSItems res)) cl) (λ cl,
    copy_items storageclasses_Create "unable to copy storage class: "
      (range (SCItems res)) cl)))))))) in
  (set_externalkubeclient r.1 c, r.2).

(** [func (c *ClusterCapacity) getResourcesFromCache() (resources, error)],
    on the cache [localCache] of the controller. *)
Definition getResourcesFromCache (localCache : T) (w : W) : resources * option error :=
  (* Read from cache *)
  match cache.Get localCache "resources" w with
  | inr err => (resources_zero, Some ("unable to get local cache: " +:+ err))
  | inl data =>
      let '(res, err) := json_Unmarshal data in
      match err with
      | Some err => (res, Some ("unable to unmarshal cache: " +:+ err))
      | None => (res, None)
      end
  end.

(** [func (c *ClusterCapacity) SyncResources(client, refresh bool) error]:
    sync resources from API server if no cache exists or refresh needed,
    otherwise using local cache data. *)
Definition SyncResources (c : ClusterCapacity C ReviewSpecRest ReviewStatus)
    (localCache : T) (client : A) (refresh : bool) (w : W)
    : ClusterCapacity C ReviewSpecRest ReviewStatus * W * option error :=
  let '(res, refresh) :=
    if negb refresh then
      (* Read from cache *)
      let '(res, err) := getResourcesFromCache localCache w in
      let refresh := if err is Some _ then true else refresh in
      let refresh := if DeepEqual res resources_zero then true else refresh in
      (res, refresh)
    else (resources_zero, refresh) in
  let listed : resources * bool + error :=
    if refresh then
      let '(resUpdated, err) := getResourcesFromAPIServer client in
      match err with
      | Some err => inr ("unable to list pods: " +:+ err)
      | None =>
          if negb (DeepEqual res resUpdated) then inl (resUpdated, true)
          else inl (res, false)
      end
    else inl (res, false) in
  match listed with
  | inr err => (c, w, Some err)
  | inl (res, needCached) =>
      let '(c, err) := FillWithResources c res in
      match err with
      | Some err => (c, w, Some ("unable to fill with resources: " +:+ err))
      | None =>
          if needCached then
            match json_Marshal res with
            | inr err => (c, w, Some ("unable to marshal items: " +:+ err))
            | inl data =>
                let '(w, err) := cache.Set_ localCache "resources" data w in
                match err with
                | Some _ => (c, w, Some "unable to cache")
                | None => (c, w, None)
                end
            end
          else (c, w, None)
      end
  end.

End sync.

(** [FillWithResources] seen as one list of objects created in order. *)

Section objects.

Context `{Kinds}.
Context {C : Type} `{!Cluster C} `{!Objects C}.

Inductive object : Type :=
| PodObject (item : corev1.Pod)
| NodeObject (item : Node)
| ServiceObject (item : Service)
| PersistentVolumeClaimObject (item : PersistentVolumeClaim)
| ReplicationControllerObject (item : ReplicationController)
| PodDisruptionBudgetObject (item : PodDisruptionBudget)
| ReplicaSetObject (item : ReplicaSet)
| StatefulSetObject (item : StatefulSet)
| StorageClassObject (item : StorageClass).

(** The objects of [res], kind by kind in the order of the loops. *)
Definition objects (res : resources) : list object :=
  (PodObject <$> range (PodItems res)) ++
  (NodeObject <$> range (NodeItems res)) ++
  (ServiceObject <$> range (SVCItems res)) ++
  (PersistentVolumeClaimObject <$> range (PVCItems res)) ++
  (ReplicationControllerObject <$> range (RCItems res)) ++
  (PodDisruptionBudgetObject <$> range (PDBItems res)) ++
  (ReplicaSetObject <$> range (RSItems res)) ++
  (StatefulSetObject <$> range (SSItems res)) ++
  (StorageClassObject <$> range (SCItems res)).

Definition with_text (text : string) (r : C * option error) : C * option error :=
  (r.1, (λ err, text +:+ err) <$> r.2).

(** The [Create] call for one object, with the error text of its kind. *)
Definition create_object (cl : C) (o : object) : C * option error :=
  match o with
  | PodObject item => with_text "unable to copy pod: " (pods_Create cl item)
  | NodeObject item => with_text "unable to copy node: " (nodes_Create cl item)
  | ServiceObject item => with_text "unable to copy service: " (services_Create cl item)
  | PersistentVolumeClaimObject item =>
      with_text "unable to copy pvc: " (persistentvolumeclaims_Create cl item)
  | ReplicationControllerObject item =>
      with_text "unable to copy RC: " (replicationcontrollers_Create cl item)
  | PodDisruptionBudgetObject item =>
      with_text "unable to copy PDB: " (poddisruptionbudgets_Create cl item)
  | ReplicaSetObject item =>
      with_text "unable to copy replica set: " (replicasets_Create cl item)
  | StatefulSetObject item =>
      with_text "unable to copy stateful set: " (statefulsets_Create cl item)
  | StorageClassObject item =>
      with_text "unable to copy storage class: " (storageclasses_Create cl item)
  end.

(** One object after the other, up to the first error. *)
Fixpoint create_all (os : list object) (cl : C) : C * option error :=
  match os with
  | [] => (cl, None)
  | o :: os =>
      match create_object cl o with
      | (cl, Some err) => (cl, Some err)
      | (cl, None) => create_all os cl
      end
  end.

End objects.

(** What holds of the controller while [Run] waits, whatever the limit:
    the scheduler runs, [stop] is open and nothing was received from it,
    the stop reason and the signals go with the flag [closed], and every
    placement is a running pod. *)
Definition waiting {C R S : Type} (c : ClusterCapacity C R S) : Prop :=
  lifecycle c ∧ schedulers c = Running ∧
  ch_closed (stop c) = false ∧ ch_recv (stop c) = 0 ∧
  (if closed c then StopReason (status c) ≠ "" ∧ 0 < ch_sent (stop c)
   else StopReason (status c) = "" ∧ ch_sent (stop c) = 0) ∧
  Forall (λ p, corev1.Phase (corev1.Status p) = corev1.PodRunning) (Pods (status c)).

(** The same without a limit, after [k] accepted binds. *)
Definition unlimited {C R S : Type} (k : nat) (c : ClusterCapacity C R S) : Prop :=
  (maxSimulated c ≤ 0)%Z ∧ lifecycle c ∧ closed c = false ∧
  length (Pods (status c)) = k ∧ simulated c = (Z.of_nat k + 1)%Z ∧
  StopReason (status c) = "" ∧ stop c = make_chan.

(** ** cmd/cluster-capacity/app *)

Module app.

(** The options and the configuration are declared in the options package
    of the command; these are the fields the functions below read. *)
Record ClusterCapacityOptions : Type := {
  Kubeconfig : string;
  PodSpecFile : string;
  MaxLimit : Z;
  Refresh : bool;
  CacheDir : string;
}.

Record ClusterCapacityConfig (A T : Type) : Type := {
  Pod : corev1.Pod;
  KubeClient : A;
  Options : ClusterCapacityOptions;
  Cache : T;
}.
Arguments Pod {A T} _.
Arguments KubeClient {A T} _.
Arguments Options {A T} _.
Arguments Cache {A T} _.

(** [func Validate(opt *options.ClusterCapacityOptions) error]; [env] is
    the environment [os.LookupEnv] reads. *)
Definition Validate (opt : ClusterCapacityOptions) (env : gmap string string) : option error :=
  if bool_decide (String.length (PodSpecFile opt) = 0) then Some "Pod spec file is missing"
  else
    let present := bool_decide (is_Some (env !! "CC_INCLUSTER")) in
    if negb present then
      if bool_decide (String.length (Kubeconfig opt) = 0) then Some "kubeconfig is missing"
      else None
    else None.

(** What [runSimulator] comes to: the report, an error, or still blocked
    in [Run]. *)
Inductive simulation (R : Type) : Type :=
| Reported (report : R)
| Failed (err : error)
| Blocked.
Arguments Reported {R} report.
Arguments Failed {R} err.
Arguments Blocked {R}.

Section simulator.

Context `{Kinds}.
Context {C : Type} `{!Cluster C} `{!Objects C} {ReviewSpecRest ReviewStatus : Type}.
Context {A : Type} `{!APIServer A}.
Context {T W : Type} `{!cache.Cache T W}.
Context (json_Marshal : resources → list Byte.byte + error).
Context (json_Unmarshal : list Byte.byte → resources * option error).
Context (GetReport : list corev1.Pod → Status → ClusterCapacityReview ReviewSpecRest ReviewStatus).

(** [func runSimulator(s, kubeSchedulerConfig)], which returns the review
    or an error. [framework.New] fails when [scheduler.New] does:
    [scheduler_New] is the error of that call. [uid], [early] and [evs]
    are those of [Run]. *)
Definition runSimulator (s : ClusterCapacityConfig A T) (scheduler_New : option error)
    (uid : string) (early evs : list event) (w : W)
    : outcome (W * simulation (ClusterCapacityReview ReviewSpecRest ReviewStatus)) :=
  match scheduler_New with
  | Some err => mret (w, Failed err)
  | None =>
      let cc : ClusterCapacity C ReviewSpecRest ReviewStatus :=
        New (Pod s) (MaxLimit (Options s)) in
      let '(cc, w, err) :=
        SyncResources json_Marshal json_Unmarshal cc (Cache s) (KubeClient s)
          (Refresh (Options s)) w in
      match err with
      | Some err => mret (w, Failed err)
      | None =>
          '(cc, r) ← Run cc uid early evs;
          match r with
          | Returned (Some err) => mret (w, Failed err)
          | Waiting => mret (w, Blocked)
          | Returned None =>
              let '(cc, report) := Report GetReport cc in
              mret (w, Reported report)
          end
      end
  end.

End simulator.

End app.

(** ** The in-memory cluster with the other kinds, and a cluster to list *)

Module inventory.

(** The other kinds by name alone. *)
#[global] Instance names : Kinds := {|
  Node := string;
  Service := string;
  PersistentVolumeClaim := string;
  ReplicationController := string;
  PodDisruptionBudget := string;
  ReplicaSet := string;
  StatefulSet := string;
  StorageClass := string;
|}.

Record store : Type := {
  cluster : memcluster.store;
  others : gset (string * string);
}.

Definition lift (f : memcluster.store → memcluster.store * option error) (s : store)
    : store * option error :=
  ({| cluster := (f (cluster s)).1; others := others s |}, (f (cluster s)).2).

#[global] Instance store_Cluster : Cluster store := {
  NewSimpleClientset := {| cluster := NewSimpleClientset; others := ∅ |};
  pods_Get s := memcluster.get (cluster s);
  pods_Create s p := lift (λ m, memcluster.create m p) s;
  strategy_Add s p := lift (λ m, memcluster.add m p) s;
}.

Definition create_node (s : store) (name : string) : store * option error :=
  if decide (name ∈ memcluster.nodes (cluster s))
  then (s, Some ("nodes " +:+ name +:+ " already exists"))
  else ({| cluster := {| memcluster.pods := memcluster.pods (cluster s);
                         memcluster.nodes := {[name]} ∪ memcluster.nodes (cluster s) |};
           others := others s |}, None).

Definition create_other (kind : string) (s : store) (name : string) : store * option error :=
  if decide ((kind, name) ∈ others s)
  then (s, Some (kind +:+ " " +:+ name +:+ " already exists"))
  else ({| cluster := cluster s; others := {[(kind, name)]} ∪ others s |}, None).

#[global] Instance store_Objects : Objects store := {
  nodes_Create := create_node;
  services_Create := create_other "services";
  persistentvolumeclaims_Create := create_other "persistentvolumeclaims";
  replicationcontrollers_Create := create_other "replicationcontrollers";
  poddisruptionbudgets_Create := create_other "poddisruptionbudgets";
  replicasets_Create := create_other "replicasets";
  statefulsets_Create := create_other "statefulsets";
  storageclasses_Create := create_other "storageclasses";
}.

(** A cluster to list: what each [List] call gives. *)
Record api : Type := {
  api_pods : slice corev1.Pod + error;
  api_nodes : slice string + error;
  api_services : slice string + error;
  api_persistentvolumeclaims : slice string + error;
  api_replicationcontrollers : slice string + error;
  api_poddisruptionbudgets : slice string + error;
  api_replicasets : slice string + error;
  api_statefulsets : slice string + error;
  api_storageclasses : slice string + error;
}.

#[global] Instance api_APIServer : APIServer api := {
  pods_List := api_pods;
  nodes_List := api_nodes;
  services_List := api_services;
  persistentvolumeclaims_List := api_persistentvolumeclaims;
  replicationcontrollers_List := api_replicationcontrollers;
  poddisruptionbudgets_List := api_poddisruptionbudgets;
  replicasets_List := api_replicasets;
  statefulsets_List := api_statefulsets;
  storageclasses_List := api_storageclasses;
}.

(** The disk cache over the two path functions of the examples. *)
#[global] Instance disk_Cache : cache.Cache cache.diskCache cache.filesystem :=
  cache.diskCache_Cache example.hash example.join.

Definition tmp : cache.diskCache := {| cache.directory := "/tmp/cc" |}.

(** A running pod of another workload. *)
Definition db : corev1.Pod :=
  corev1.set_Phase corev1.PodRunning
    (corev1.set_NodeName "node-1" (corev1.set_Name "db" memcluster.web)).

(** A cluster of one node with one pod and one service. *)
Definition listed : resources :=
  {| PodItems := Some [db]; NodeItems := Some ["node-1"]; SVCItems := Some ["db"];
     PVCItems := Some []; RCItems := Some []; PDBItems := Some [];
     RSItems := Some []; SSItems := Some []; SCItems := None |}.

Definition serving (res : resources) : api :=
  {| api_pods := inl (PodItems res); api_nodes := inl (NodeItems res);
     api_services := inl (SVCItems res);
     api_persistentvolumeclaims := inl (PVCItems res);
     api_replicationcontrollers := inl (RCItems res);
     api_poddisruptionbudgets := inl (PDBItems res);
     api_replicasets := inl (RSItems res);
     api_statefulsets := inl (SSItems res);
     api_storageclasses := inl (SCItems res) |}.

(** The same cluster when listing the nodes fails. *)
Definition unreachable : api :=
  {| api_pods := inl (PodItems listed); api_nodes := inr "connection refused";
     api_services := inl (SVCItems listed);
     api_persistentvolumeclaims := inl (PVCItems listed);
     api_replicationcontrollers := inl (RCItems listed);
     api_poddisruptionbudgets := inl (PDBItems listed);
     api_replicasets := inl (RSItems listed);
     api_statefulsets := inl (SSItems listed);
     api_storageclasses := inl (SCItems listed) |}.

(** A codec that knows the one value of the examples. *)
Definition encode (res : resources) : list Byte.byte + error :=
  if decide (res = listed) then inl example.bytes else inr "json: unsupported value".

Definition decode (data : list Byte.byte) : resources * option error :=
  if decide (length data = 2) then (listed, None)
  else (resources_zero, Some "unexpected end of JSON input").

Definition new (maxPods : Z) : ClusterCapacity store unit (list corev1.Pod * Status) :=
  New memcluster.web maxPods.

(** The file system once the listed cluster is cached. *)
Definition cached : cache.filesystem :=
  (cache.diskCache_Set example.hash example.join tmp "resources" example.bytes
     example.disk).1.

(** A store in which the name of instance 1 is taken. *)
Definition taken_next : memcluster.store :=
  {| memcluster.pods := {[("default", "web-1") := memcluster.web]};
     memcluster.nodes := {["node-1"]} |}.

Definition options (maxPods : Z) : app.ClusterCapacityOptions :=
  {| app.Kubeconfig := "/root/.kube/config"; app.PodSpecFile := "pod.yaml";
     app.MaxLimit := maxPods; app.Refresh := true; app.CacheDir := "/tmp/cc" |}.

Definition config (maxPods : Z) : app.ClusterCapacityConfig api cache.diskCache :=
  {| app.Pod := memcluster.web; app.KubeClient := serving listed;
     app.Options := options maxPods; app.Cache := tmp |}.

End inventory.

(** * Properties *)

(** ** Integers and channels *)

Lemma wrap_64_small (z : Z) : is_int z → wrap 64 z = z.
Proof.
  unfold is_int, int_min, int_max, wrap. intros Hz.
  change (2 ^ (64 - 1))%Z with 9223372036854775808%Z in *.
  change (2 ^ 64)%Z with 18446744073709551616%Z.
  change (2 ^ 63)%Z with 9223372036854775808%Z in Hz.
  rewrite Z.mod_small; lia.
Qed.

Lemma int_add_small (x y : Z) : is_int (x + y) → int_add x y = (x + y)%Z.
Proof. apply wrap_64_small. Qed.

Lemma int32_small (z : Z) : is_int32 z → int32 z = z.
Proof.
  unfold is_int32, int32, wrap. intros Hz.
  change (2 ^ (32 - 1))%Z with 2147483648%Z.
  change (2 ^ 32)%Z with 4294967296%Z.
  change (2 ^ 31)%Z with 2147483648%Z in Hz.
  rewrite Z.mod_small; lia.
Qed.

Lemma close_fresh_chan : close (Chan false 0 0) = Ret (Chan true 0 0).
Proof. reflexivity. Qed.

Lemma send_open (ch : chan) :
  ch_closed ch = false → send ch = Ret (Chan false (S (ch_sent ch)) (ch_recv ch)).
Proof. unfold send. by intros ->. Qed.

(** ** The controller *)

Section simulator_facts.

Context {C : Type} `{!Cluster C} {ReviewSpecRest ReviewStatus : Type}.

#[local] Abbreviation controller := (ClusterCapacity C ReviewSpecRest ReviewStatus).

Implicit Types c : controller.

Lemma shut_closed c : lifecycle c → closed c = true → shut c = c.
Proof.
  destruct c; unfold lifecycle, shut, set_closed_chans; simpl.
  by intros [-> ->] ->.
Qed.

Lemma Close_lifecycle c : lifecycle c → Close c = Ret (shut c).
Proof.
  intros Hl. unfold Close. destruct (closed c) eqn:Hc.
  - by rewrite shut_closed.
  - destruct Hl as [Hs Hi]. rewrite Hc in Hs, Hi. by rewrite Hs, Hi.
Qed.

Lemma lifecycle_shut c : lifecycle (shut c).
Proof. by split. Qed.

Lemma lifecycle_ready cl pod n : lifecycle (ready (ReviewSpecRest:=ReviewSpecRest)
  (ReviewStatus:=ReviewStatus) cl pod n).
Proof. by split. Qed.

Lemma Close_times_shut c n :
  lifecycle c → closed c = true → Close_times n c = Ret c.
Proof.
  intros Hl Hc. induction n as [|n IH]; [done|].
  simpl. rewrite Close_lifecycle, shut_closed by done. apply IH.
Qed.

(** C7. [Close] is idempotent. On a controller whose two channels are in
    step with the flag [closed] (as [New] builds it and every method keeps
    it), a call of [Close] returns without a panic and leaves the scheduler
    channel and the informer stop channel closed and the flag set; a call
    on a controller already closed changes nothing, so the second call is
    a no-op, and any number of calls one after the other (the calls are
    serialised by [closedMux]) ends in the state the first one left, each
    channel having been closed once. *)
Theorem Close_idempotent c :
  lifecycle c →
  ∃ c1,
    Close c = Ret c1 ∧
    schedulerCh c1 = Chan true 0 0 ∧
    informerStopCh c1 = Chan true 0 0 ∧
    closed c1 = true ∧
    (closed c = true → c1 = c) ∧
    Close c1 = Ret c1 ∧
    ∀ n, Close_times (S n) c = Ret c1.
Proof.
  intros Hl. exists (shut c).
  assert (Close (shut c) = Ret (shut c)) as Hagain.
  { rewrite Close_lifecycle by apply lifecycle_shut.
    by rewrite shut_closed by (done || apply lifecycle_shut). }
  repeat split; try done.
  - by apply Close_lifecycle.
  - intros Hc. by apply shut_closed.
  - intros n. simpl. rewrite Close_lifecycle by done.
    apply Close_times_shut; [apply lifecycle_shut | done].
Qed.

(** *** Frames: what each method leaves alone *)

Lemma bind_Ret {A B} (a : A) (k : A → outcome B) : (Ret a ≫= k) = k a.
Proof. reflexivity. Qed.

Lemma lifecycle_frame c c' :
  schedulerCh c' = schedulerCh c → informerStopCh c' = informerStopCh c →
  closed c' = closed c → lifecycle c → lifecycle c'.
Proof. unfold lifecycle. by intros -> -> ->. Qed.

Lemma nextPod_frame c uid :
  simulated (nextPod c uid).1 = int_add (simulated c) 1 ∧
  status (nextPod c uid).1 = status c ∧
  maxSimulated (nextPod c uid).1 = maxSimulated c ∧
  closed (nextPod c uid).1 = closed c ∧
  stop (nextPod c uid).1 = stop c ∧
  schedulerCh (nextPod c uid).1 = schedulerCh c ∧
  informerStopCh (nextPod c uid).1 = informerStopCh c.
Proof. unfold nextPod. by destruct (pods_Create _ _). Qed.

(** [Update] on a condition it does not stop on. *)
Lemma Update_ignored c pod cond sn :
  terminal pod cond = false → Update c pod cond sn = Ret (c, None).
Proof. unfold Update. by intros ->. Qed.

(** [Update] on a condition it stops on, while [stop] is open. *)
Lemma Update_terminal c pod cond sn :
  lifecycle c → ch_closed (stop c) = false → terminal pod cond = true →
  Update c pod cond sn =
    Ret (set_stop (Chan false (S (ch_sent (stop c))) (ch_recv (stop c)))
           (set_stopped true
              (shut (set_StopReason
                       (corev1.PodCondition.Reason cond +:+ ": "
                          +:+ corev1.PodCondition.Message cond) c))), None).
Proof.
  intros Hl Hs Ht. unfold Update. rewrite Ht.
  rewrite Close_lifecycle by (by eapply lifecycle_frame).
  rewrite bind_Ret. rewrite send_open by done. by rewrite bind_Ret.
Qed.

Lemma nextPod_frame_rest c uid :
  schedulers (nextPod c uid).1 = schedulers c ∧
  stopped (nextPod c uid).1 = stopped c ∧
  report (nextPod c uid).1 = report c ∧
  simulatedPod (nextPod c uid).1 = simulatedPod c ∧
  defaultSchedulerName (nextPod c uid).1 = defaultSchedulerName c.
Proof. unfold nextPod. by destruct (pods_Create _ _). Qed.

(** [Run] up to the first [nextPod] when nothing happens during the sleep. *)
Lemma Run_start_nil c uid :
  Run_start c uid [] = Ret (nextPod (set_schedulers Running (set_informersStarted true c)) uid).
Proof. reflexivity. Qed.

(** The same on the controller [New] built. *)
Lemma Run_start_ready cl pod n uid c1 e :
  Run_start (ready cl pod n : controller) uid [] = Ret (c1, e) →
  simulated c1 = 1%Z ∧ status c1 = {| Pods := []; StopReason := "" |} ∧
  maxSimulated c1 = n ∧ closed c1 = false ∧ stop c1 = make_chan ∧
  schedulerCh c1 = make_chan ∧ informerStopCh c1 = make_chan ∧
  schedulers c1 = Running.
Proof.
  rewrite Run_start_nil.
  match goal with |- context [nextPod ?c0 uid] =>
    pose proof (nextPod_frame c0 uid) as (Hf1 & Hf2 & Hf3 & Hf4 & Hf5 & Hf6 & Hf7);
    pose proof (nextPod_frame_rest c0 uid) as (Hg1 & _);
    destruct (nextPod c0 uid) as [c0' e0] end.
  simpl in *. intros [= <- <-]. by rewrite Hf1, Hf2, Hf3, Hf4, Hf5, Hf6, Hf7, Hg1.
Qed.

(** C2, as the code has it. When a bind reaches the limit (the store has
    the pod, the strategy takes it, and the serial counter has reached a
    limit above zero), the stop reason recorded is the text
    [LimitReached: Maximum number of pods simulated: ] followed by the
    limit in decimal; under the limit 3 it ends in [simulated: 3]. *)
Theorem Bind_limit_reason c p node sn uid pod cl :
  lifecycle c → ch_closed (stop c) = false →
  pods_Get (externalkubeclient c) (metav1.Namespace (corev1.ObjectMeta p))
    (metav1.Name (corev1.ObjectMeta p)) = inl pod →
  strategy_Add (externalkubeclient c)
    (corev1.set_Phase corev1.PodRunning (corev1.set_NodeName node (corev1.DeepCopy pod)))
    = (cl, None) →
  (0 < maxSimulated c ≤ simulated c)%Z →
  ∃ c', Bind c p node sn uid = Ret (c', None) ∧
    StopReason (status c') =
      "LimitReached: Maximum number of pods simulated: " +:+ fmt_int (maxSimulated c) ∧
    (maxSimulated c = 3%Z →
     StopReason (status c') = "LimitReached: Maximum number of pods simulated: 3").
Proof.
  intros Hl Hs Hget Hadd [Hpos Hge]. unfold Bind. rewrite Hget, Hadd.
  rewrite !bool_decide_eq_true_2 by done. simpl.
  rewrite Close_lifecycle by (by eapply lifecycle_frame).
  rewrite bind_Ret. simpl. rewrite send_open by done. rewrite bind_Ret.
  eexists. split; [done|]. simpl. split; [done|]. by intros ->.
Qed.

(** The condition [Update] tests, spelled out. *)
Lemma terminal_spec pod cond :
  terminal pod cond = true ↔
  corev1.PodCondition.Type_ cond = corev1.PodScheduled ∧
  corev1.PodCondition.Status cond = corev1.ConditionFalse ∧
  corev1.PodCondition.Reason cond = "Unschedulable" ∧
  ∃ m, metav1.Annotations (corev1.ObjectMeta pod) = Some m ∧ is_Some (m !! podProvisioner).
Proof.
  unfold terminal, metav1.HasAnnotation.
  rewrite !andb_true_iff, !bool_decide_eq_true.
  destruct (metav1.Annotations (corev1.ObjectMeta pod)) as [m|].
  - rewrite bool_decide_eq_true. split.
    + intros [[[? ?] ?] ?]. split_and!; try done. by exists m.
    + intros (? & ? & ? & m' & [= <-] & ?). done.
  - split; [by intros [_ ?] | by intros (_ & _ & _ & m & ? & _)].
Qed.

(** C3. [Update] stops the run exactly on the terminal condition of a
    provisioned pod. Whatever the controller, a condition that is not
    [PodScheduled] with status [False] and reason [Unschedulable], or a pod
    without the annotation [cc.kubernetes.io/provisioned-by], leaves the
    controller as it is and returns nil. While the run is on (the
    controller's channels in step with [closed], [stop] open) [Update]
    returns nil, and in the terminal case it has set the stop reason to
    the reason, a colon and a blank, and the message, closed the
    controller and sent on [stop]; a signal is sent if and only if the
    case is the terminal one. *)
Theorem Update_stops_iff_terminal c pod cond sn :
  let shape :=
    corev1.PodCondition.Type_ cond = corev1.PodScheduled ∧
    corev1.PodCondition.Status cond = corev1.ConditionFalse ∧
    corev1.PodCondition.Reason cond = "Unschedulable" ∧
    ∃ m, metav1.Annotations (corev1.ObjectMeta pod) = Some m ∧ is_Some (m !! podProvisioner) in
  (¬ shape → Update c pod cond sn = Ret (c, None)) ∧
  (lifecycle c → ch_closed (stop c) = false →
   ∃ c', Update c pod cond sn = Ret (c', None) ∧
     (shape →
      StopReason (status c') =
        corev1.PodCondition.Reason cond +:+ ": " +:+ corev1.PodCondition.Message cond ∧
      Pods (status c') = Pods (status c) ∧
      closed c' = true ∧ stopped c' = true ∧
      ch_closed (schedulerCh c') = true ∧ ch_closed (informerStopCh c') = true) ∧
     (ch_sent (stop c') = S (ch_sent (stop c)) ↔ shape)).
Proof.
  intros shape. split.
  - intros Hn. apply Update_ignored. apply not_true_is_false.
    by rewrite terminal_spec.
  - intros Hl Hs. destruct (terminal pod cond) eqn:Ht.
    + rewrite (Update_terminal c pod cond sn Hl Hs Ht).
      apply terminal_spec in Ht. eexists. split; [done|]. simpl. done.
    + rewrite Update_ignored by done. exists c. split; [done|].
      assert (¬ shape) as Hn.
      { intros Hsh. apply terminal_spec in Hsh. congruence. }
      split; [done|]. split; [lia | done].
Qed.

(** C5. When the strategy's [Add] returns an error for the pod the store
    has, [Bind] returns the error status with the text
    [Unable to recompute new cluster state: ] and the error, and the
    controller is as before but for what [Add] left in the store: nothing
    is appended, no instance is created, the stop reason, the counter and
    the channels are untouched. In a run where this is the only event
    (nothing happens before instance 0 is created either), [Run] keeps
    waiting, with no placement and no stop reason. *)
Theorem Bind_projection_error c p node sn uid pod cl err :
  pods_Get (externalkubeclient c) (metav1.Namespace (corev1.ObjectMeta p))
    (metav1.Name (corev1.ObjectMeta p)) = inl pod →
  strategy_Add (externalkubeclient c)
    (corev1.set_Phase corev1.PodRunning (corev1.set_NodeName node (corev1.DeepCopy pod)))
    = (cl, Some err) →
  Bind c p node sn uid =
    Ret (set_externalkubeclient cl c,
         Some (schedframework.NewStatus schedframework.Error
                 ("Unable to recompute new cluster state: " +:+ err))) ∧
  status (set_externalkubeclient cl c) = status c ∧
  simulated (set_externalkubeclient cl c) = simulated c ∧
  lastSimulatedPod (set_externalkubeclient cl c) = lastSimulatedPod c ∧
  stop (set_externalkubeclient cl c) = stop c ∧
  closed (set_externalkubeclient cl c) = closed c ∧
  (∀ cl0 tmpl n uid0,
     Run_start (ready cl0 tmpl n) uid0 [] = Ret (c, None) →
     Run (ready cl0 tmpl n) uid0 [] [BindCall p node uid]
       = Ret (set_externalkubeclient cl c, Waiting) ∧
     status (set_externalkubeclient cl c) = {| Pods := []; StopReason := "" |}).
Proof.
  intros Hget Hadd.
  assert (Bind c p node sn uid =
    Ret (set_externalkubeclient cl c,
         Some (schedframework.NewStatus schedframework.Error
                 ("Unable to recompute new cluster state: " +:+ err)))) as HB.
  { unfold Bind. by rewrite Hget, Hadd. }
  split_and!; try done.
  intros cl0 tmpl n uid0 Hs.
  pose proof (Run_start_ready cl0 tmpl n uid0 _ _ Hs) as (_ & Hst & _ & _ & Hstop & _).
  split; [|done].
  unfold Run. rewrite Hs, bind_Ret. simpl.
  unfold Bind. rewrite Hget, Hadd. simpl. by rewrite Hstop.
Qed.


(** *** Seeding *)

(** [nextPod] in one piece: the instance, then the store. *)
Lemma nextPod_eq c uid :
  let pod :=
    corev1.set_Annotations
      (Some (<[podProvisioner := defaultSchedulerName c]>
               (default ∅ (metav1.Annotations (corev1.ObjectMeta (simulatedPod c))))))
      (corev1.set_SchedulerName (defaultSchedulerName c)
         (corev1.set_UID uid
            (corev1.set_Name
               (metav1.Name (corev1.ObjectMeta (simulatedPod c)) +:+ "-"
                  +:+ fmt_int (simulated c))
               (corev1.set_NodeName "" (simulatedPod c))))) in
  nextPod c uid =
    (set_externalkubeclient (pods_Create (externalkubeclient c) pod).1
       (set_lastSimulatedPod (Some pod) (set_simulated (int_add (simulated c) 1) c)),
     (pods_Create (externalkubeclient c) pod).2).
Proof.
  unfold nextPod, corev1.DeepCopy. simpl.
  destruct (metav1.Annotations (corev1.ObjectMeta (simulatedPod c))) as [m|] eqn:Hann;
    simpl; rewrite ?Hann; simpl; by destruct (pods_Create _ _).
Qed.

(** The instance [nextPod] builds and hands to the store. *)
Lemma nextPod_instance c uid :
  ∃ pod,
    lastSimulatedPod (nextPod c uid).1 = Some pod ∧
    pods_Create (externalkubeclient c) pod
      = (externalkubeclient (nextPod c uid).1, (nextPod c uid).2) ∧
    metav1.Name (corev1.ObjectMeta pod)
      = metav1.Name (corev1.ObjectMeta (simulatedPod c)) +:+ "-" +:+ fmt_int (simulated c) ∧
    metav1.UID (corev1.ObjectMeta pod) = uid ∧
    corev1.NodeName (corev1.Spec pod) = "" ∧
    corev1.SchedulerName (corev1.Spec pod) = defaultSchedulerName c ∧
    metav1.Annotations (corev1.ObjectMeta pod)
      = Some (<[podProvisioner := defaultSchedulerName c]>
                (default ∅ (metav1.Annotations (corev1.ObjectMeta (simulatedPod c))))) ∧
    metav1.Namespace (corev1.ObjectMeta pod)
      = metav1.Namespace (corev1.ObjectMeta (simulatedPod c)) ∧
    metav1.Labels (corev1.ObjectMeta pod) = metav1.Labels (corev1.ObjectMeta (simulatedPod c)) ∧
    corev1.Containers (corev1.Spec pod) = corev1.Containers (corev1.Spec (simulatedPod c)) ∧
    corev1.Status pod = corev1.Status (simulatedPod c).
Proof.
  rewrite nextPod_eq. simpl. eexists. split; [reflexivity|].
  split; [by destruct (pods_Create _ _)|]. by split_and!.
Qed.

Lemma seeds_names uids c (k : nat) :
  simulated c = Z.of_nat k →
  (Z.of_nat (k + length uids) ≤ int_max)%Z →
  (λ p, metav1.Name (corev1.ObjectMeta p)) <$> (seeds c uids).2 =
  (λ i : nat, metav1.Name (corev1.ObjectMeta (simulatedPod c)) +:+ "-"
                +:+ fmt_int (Z.of_nat i)) <$> seq k (length uids).
Proof.
  revert c k. induction uids as [|uid uids IH]; intros c k Hk Hb; [done|].
  simpl.
  destruct (nextPod_instance c uid) as (pod & Hlast & _ & Hname & _).
  pose proof (nextPod_frame c uid) as (Hsim & _).
  pose proof (nextPod_frame_rest c uid) as (_ & _ & _ & Htmpl & _).
  destruct (nextPod c uid) as [c1 e]. simpl in *.
  specialize (IH c1 (S k)).
  destruct (seeds c1 uids) as [c2 ps]. simpl in *.
  rewrite Hlast. simpl. rewrite Hname, Hk. f_equal.
  rewrite Htmpl in IH. apply IH; [|lia].
  rewrite Hsim, Hk, int_add_small; [lia|].
  unfold is_int, int_min, int_max in *. lia.
Qed.

Lemma seeds_simulatedPod uids c : simulatedPod (seeds c uids).1 = simulatedPod c.
Proof.
  revert c. induction uids as [|uid uids IH]; intros c; [done|].
  simpl. pose proof (nextPod_frame_rest c uid) as (_ & _ & _ & Htmpl & _).
  destruct (nextPod c uid) as [c1 e]. specialize (IH c1).
  destruct (seeds c1 uids) as [c2 ps]. simpl in *. congruence.
Qed.

(** C8. The instance [nextPod] creates is the template but for: its name,
    the template's name, a dash and the serial counter in decimal; its
    UID, the one just generated; its node name, empty; its scheduler name,
    the controller's; and its annotations, the template's with
    [cc.kubernetes.io/provisioned-by] set to the scheduler name. The
    template itself is untouched and the counter goes up by one, whether
    or not the store takes the instance. Hence, from a counter at 0, the
    names of [N] instances seeded in a row are the template's name with
    0, 1, ..., [N-1], and are pairwise distinct (for every [N] an [int]
    can count). *)
Theorem nextPod_unique_instances c uid :
  (∃ pod,
     lastSimulatedPod (nextPod c uid).1 = Some pod ∧
     pods_Create (externalkubeclient c) pod
       = (externalkubeclient (nextPod c uid).1, (nextPod c uid).2) ∧
     metav1.Name (corev1.ObjectMeta pod)
       = metav1.Name (corev1.ObjectMeta (simulatedPod c)) +:+ "-" +:+ fmt_int (simulated c) ∧
     metav1.UID (corev1.ObjectMeta pod) = uid ∧
     corev1.NodeName (corev1.Spec pod) = "" ∧
     corev1.SchedulerName (corev1.Spec pod) = defaultSchedulerName c ∧
     (∃ m, metav1.Annotations (corev1.ObjectMeta pod) = Some m ∧
        m !! podProvisioner = Some (defaultSchedulerName c) ∧
        ∀ k, k ≠ podProvisioner →
          m !! k = default ∅ (metav1.Annotations (corev1.ObjectMeta (simulatedPod c))) !! k) ∧
     metav1.Namespace (corev1.ObjectMeta pod)
       = metav1.Namespace (corev1.ObjectMeta (simulatedPod c)) ∧
     metav1.Labels (corev1.ObjectMeta pod)
       = metav1.Labels (corev1.ObjectMeta (simulatedPod c)) ∧
     corev1.Containers (corev1.Spec pod) = corev1.Containers (corev1.Spec (simulatedPod c)) ∧
     corev1.Status pod = corev1.Status (simulatedPod c)) ∧
  simulatedPod (nextPod c uid).1 = simulatedPod c ∧
  simulated (nextPod c uid).1 = int_add (simulated c) 1 ∧
  (∀ uids,
     simulated c = 0%Z → (Z.of_nat (length uids) ≤ int_max)%Z →
     let names := (λ p, metav1.Name (corev1.ObjectMeta p)) <$> (seeds c uids).2 in
     names = (λ i : nat, metav1.Name (corev1.ObjectMeta (simulatedPod c)) +:+ "-"
                           +:+ fmt_int (Z.of_nat i)) <$> seq 0 (length uids) ∧
     NoDup names).
Proof.
  split_and!.
  - destruct (nextPod_instance c uid)
      as (pod & H1 & H2 & H3 & H4 & H5 & H6 & H7 & H8 & H9 & H10 & H11).
    exists pod. split_and!; try done.
    eexists. split; [done|]. split; [by rewrite lookup_insert_eq|].
    intros k Hk. by rewrite lookup_insert_ne.
  - apply nextPod_frame_rest.
  - apply nextPod_frame.
  - intros uids H0 Hlen names. subst names.
    rewrite (seeds_names uids c 0) by (done || lia).
    split; [done|].
    apply NoDup_fmap_2; [|apply NoDup_seq].
    intros i j Hij. unfold fmt_int in Hij.
    apply (inj (String.app _)) in Hij. apply (inj (String.app _)) in Hij.
    apply (inj pretty) in Hij. lia.
Qed.

(** *** What a run leaves alone: the report, the template and the limit *)

(** What no method of the run writes. *)
#[local] Abbreviation same_config c c' :=
  (report c' = report c ∧ simulatedPod c' = simulatedPod c ∧
   maxSimulated c' = maxSimulated c).

Lemma Close_same_config c c' : Close c = Ret c' → same_config c c'.
Proof.
  unfold Close. destruct (closed c); [by intros [= <-]|].
  destruct (close (schedulerCh c)); [|done]. rewrite bind_Ret.
  destruct (close (informerStopCh c)); [|done]. rewrite bind_Ret.
  by intros [= <-].
Qed.

Lemma Update_same_config c pod cond sn c' e :
  Update c pod cond sn = Ret (c', e) → same_config c c'.
Proof.
  unfold Update. destruct (terminal pod cond); [|by intros [= <- <-]].
  destruct (Close _) as [c1|] eqn:HC; [|done]. rewrite bind_Ret.
  apply Close_same_config in HC. simpl in HC.
  destruct (send _); [|done]. rewrite bind_Ret. by intros [= <- <-].
Qed.

Lemma UpdateFunc_range_same_config sn pod conds c c' :
  UpdateFunc_range c sn pod conds = Ret c' → same_config c c'.
Proof.
  revert c. induction conds as [|cond conds IH]; intros c; simpl.
  - by intros [= <-].
  - case_bool_decide.
    + destruct (Update c pod cond sn) as [[c1 e]|] eqn:HU; [|done].
      rewrite !bind_Ret. intros Hrest. apply IH in Hrest.
      apply Update_same_config in HU.
      destruct HU as (? & ? & ?), Hrest as (? & ? & ?). split_and!; congruence.
    + rewrite bind_Ret. apply IH.
Qed.

Lemma Bind_same_config c p node sn uid c' st :
  Bind c p node sn uid = Ret (c', st) → same_config c c'.
Proof.
  unfold Bind. destruct (pods_Get _ _ _) as [pod|err]; [|by intros [= <- <-]].
  destruct (strategy_Add _ _) as [cl [err|]]; [by intros [= <- <-]|].
  destruct (bool_decide _ && bool_decide _).
  - destruct (Close _) as [c1|] eqn:HC; [|done]. rewrite bind_Ret.
    apply Close_same_config in HC. simpl in HC.
    destruct (send _); [|done]. rewrite bind_Ret. by intros [= <- <-].
  - match goal with |- context [nextPod ?c0 uid] =>
      pose proof (nextPod_frame c0 uid) as (_ & _ & Hf3 & _);
      pose proof (nextPod_frame_rest c0 uid) as (_ & _ & Hg3 & Hg4 & _);
      destruct (nextPod c0 uid) as [c1 nerr] end.
    simpl in *. destruct nerr; intros [= <- <-]; done.
Qed.

Lemma engine_same_config evs c c' log :
  engine c evs = Ret (c', log) → same_config c c'.
Proof.
  revert c log. induction evs as [|e evs IH]; intros c log; simpl.
  - by intros [= <- <-].
  - destruct (deliver c e) as [[c1 l1]|] eqn:Hd; [|done]. rewrite bind_Ret. simpl.
    destruct (engine c1 evs) as [[c2 l2]|] eqn:He; [|done]. rewrite bind_Ret. simpl.
    intros [= <- <-]. apply IH in He.
    assert (same_config c c1) as (? & ? & ?).
    { destruct e as [p node uid|old new]; simpl in Hd.
      - destruct (Bind c p node corev1.DefaultSchedulerName uid) as [[cb st]|] eqn:HB;
          [|done].
        rewrite bind_Ret in Hd. injection Hd as <- <-. by eapply Bind_same_config.
      - destruct (OnUpdate c corev1.DefaultSchedulerName old new) as [cu|] eqn:HU; [|done].
        rewrite bind_Ret in Hd. injection Hd as <- <-.
        unfold OnUpdate, UpdateFunc in HU. destruct (_ && _).
        + by eapply UpdateFunc_range_same_config.
        + by injection HU as <-. }
    destruct He as (? & ? & ?). split_and!; congruence.
Qed.

Lemma Run_same_config c uid early evs c' r :
  Run c uid early evs = Ret (c', r) → same_config c c'.
Proof.
  unfold Run, Run_start.
  destruct (engine _ early) as [[c0 l0]|] eqn:He0; [|done]. rewrite !bind_Ret. simpl.
  apply engine_same_config in He0. simpl in He0. destruct He0 as (He01 & He02 & He03).
  pose proof (nextPod_frame c0 uid) as (_ & _ & Hf3 & _).
  pose proof (nextPod_frame_rest c0 uid) as (_ & _ & Hg3 & Hg4 & _).
  destruct (nextPod c0 uid) as [c1 nerr].
  simpl in *. destruct nerr as [err|].
  - destruct (Close _) as [c2|] eqn:HC; [|done]. rewrite bind_Ret.
    apply Close_same_config in HC. simpl in HC.
    destruct (close _); [|done]. rewrite bind_Ret. intros [= <- <-]. simpl.
    destruct HC as (? & ? & ?). split_and!; congruence.
  - destruct (engine c1 evs) as [[c2 log]|] eqn:He; [|done]. rewrite bind_Ret. simpl.
    apply engine_same_config in He. destruct He as (He1 & He2 & He3).
    destruct (recv (stop c2)) as [st|].
    + simpl. destruct (close st); [|done]. rewrite bind_Ret.
      intros [= <- <-]. simpl. split_and!; congruence.
    + intros [= <- <-]. split_and!; congruence.
Qed.

(** *** The report *)

Context (GetReport : list corev1.Pod → Status → ClusterCapacityReview ReviewSpecRest ReviewStatus).

(** C9, as the code has it. [Report] is memoized. On a controller with no
    report yet, the call builds the report from the list holding the
    template pod alone and from the controller's status, sets
    [Spec.Replicas] to the limit converted to [int32], stores the report
    and returns it; the replicas are the limit itself when the limit fits
    in 32 bits. On a controller that holds a report, whatever else has
    changed, the call returns that report and changes nothing; so does the
    second call after a first. Called once [Run] has come back, as
    [runSimulator] calls it, the first call builds the report from the
    template alone and the status the run ended with, the final one. *)
Theorem Report_memoized c :
  report c = None →
  let r := set_Replicas (int32 (maxSimulated c)) (GetReport [simulatedPod c] (status c)) in
  Report GetReport c = (set_report (Some r) c, r) ∧
  Replicas (ReviewSpec r) = int32 (maxSimulated c) ∧
  (is_int32 (maxSimulated c) → Replicas (ReviewSpec r) = maxSimulated c) ∧
  Report GetReport (Report GetReport c).1 = ((Report GetReport c).1, r) ∧
  (∀ c', report c' = Some r → Report GetReport c' = (c', r)) ∧
  (∀ cl pod n uid early evs c' res,
     Run (ready cl pod n : controller) uid early evs = Ret (c', res) →
     let final := set_Replicas (int32 n) (GetReport [pod] (status c')) in
     Report GetReport c' = (set_report (Some final) c', final)).
Proof.
  intros Hnone r.
  assert (Report GetReport c = (set_report (Some r) c, r)) as HR.
  { unfold Report. by rewrite Hnone. }
  split_and!; try done.
  - intros Hfit. simpl. by apply int32_small.
  - by rewrite HR.
  - intros c' Hsome. unfold Report. by rewrite Hsome.
  - intros cl pod n uid early evs c' res HRun. simpl.
    apply Run_same_config in HRun as (Hrep & Htmpl & Hmax). simpl in *.
    unfold Report. by rewrite Hrep, Htmpl, Hmax.
Qed.

End simulator_facts.

(** ** The disk cache *)

Section disk_facts.

Context (sha1_hex : string → string) (path_Join : string → string → string).

Lemma diskCache_Set_files d key data fs fs' :
  cache.diskCache_Set sha1_hex path_Join d key data fs = (fs', None) →
  (cache.buildFileName sha1_hex path_Join d key ∉ cache.denied fs') ∧
  cache.files fs' !! cache.buildFileName sha1_hex path_Join d key = Some data.
Proof.
  unfold cache.diskCache_Set, cache.os_Create, cache.file_Write.
  destruct (decide _) as [|Hok]; [done|]. simpl.
  rewrite lookup_insert_eq. intros [= <-]. simpl.
  split; [done|]. by rewrite lookup_insert_eq.
Qed.

(** C10. [Clean] of the disk cache returns nil and leaves the file system
    as it is, for every key; an entry that [Set] has written is still read
    back by [Get] after [Clean]. *)
Theorem Clean_keeps_entry d key fs :
  cache.diskCache_Clean d key fs = (fs, None) ∧
  ∀ key0 data fs0,
    cache.diskCache_Set sha1_hex path_Join d key0 data fs0 = (fs, None) →
    cache.diskCache_Get sha1_hex path_Join d key0 (cache.diskCache_Clean d key fs).1
      = inl data.
Proof.
  split; [done|]. intros key0 data fs0 Hset. simpl.
  apply diskCache_Set_files in Hset as [Hok Hfile].
  unfold cache.diskCache_Get, cache.os_Open, cache.ioutil_ReadAll.
  rewrite decide_False by done. rewrite decide_True by (by rewrite Hfile).
  by rewrite Hfile.
Qed.

End disk_facts.

(** ** The properties at work on the in-memory cluster *)

Import example.

(** C1 on the code: a pod the run did not seed is recorded as a placement,
    and the limit does not hold the sequence. The snapshot holds a pod of
    another workload, [db], that no node has yet and that does not carry
    the annotation of the run; the limit is 1 and the engine accepts
    whatever it binds.
    - The engine binds [db] during the sleep, before instance 0 is there:
      [Bind] appends it and, the counter being 0, seeds [web-0]; [Run]
      then seeds [web-1]; the bind of [web-0] appends it and stops the run.
      Every bind returned the nil status, [Run] returns nil, and the
      sequence has two entries under the limit 1.
    - The engine binds [db] once instance 0 is there: the counter is 1, so
      this bind stops the run, and the one placement of the run is not an
      instance of the template.
    - The bind of [web-0] that is under way by then appends a second
      entry all the same, since [Bind] reads neither the flag [closed] nor
      the annotation, and sends a second signal: [Run] returns nil over a
      sender that is still parked. *)
Lemma pending_pod_exceeds_limit :
  let db := BindCall pending "node-1" "uid-1" in
  let launched :=
    set_schedulers Running (set_informersStarted true (controller snapshot 1)) in
  metav1.HasAnnotation (corev1.ObjectMeta pending) podProvisioner = false ∧
  match engine launched [db] with
  | Ret (c0, log) => log = [None] ∧ placement_names c0 = ["db"] ∧ simulated c0 = 1%Z
  | Panic _ => False
  end ∧
  match Run_start (controller snapshot 1) "uid-0" [db] with
  | Ret (c1, None) =>
      placement_names c1 = ["db"] ∧ simulated c1 = 2%Z ∧
      match engine c1 [bind 0] with
      | Ret (c2, log) =>
          log = [None] ∧ placement_names c2 = ["db"; "web-0"] ∧ maxSimulated c2 = 1%Z
      | Panic _ => False
      end
  | _ => False
  end ∧
  match Run (controller snapshot 1) "uid-0" [db] [bind 0] with
  | Ret (c', r) =>
      r = Returned None ∧ placement_names c' = ["db"; "web-0"] ∧ maxSimulated c' = 1%Z ∧
      StopReason (status c') = "LimitReached: Maximum number of pods simulated: 1" ∧
      stop c' = Chan true 1 1
  | Panic _ => False
  end ∧
  match Run (controller snapshot 1) "uid-0" [] [db] with
  | Ret (c', r) =>
      r = Returned None ∧ placement_names c' = ["db"] ∧
      StopReason (status c') = "LimitReached: Maximum number of pods simulated: 1"
  | Panic _ => False
  end ∧
  match Run (controller snapshot 1) "uid-0" [] [db; bind 0] with
  | Ret (c', r) =>
      r = Returned None ∧ placement_names c' = ["db"; "web-0"] ∧ maxSimulated c' = 1%Z ∧
      stop c' = Chan true 2 1 ∧
      parked_sender (stop c') = Some "send on closed channel"
  | Panic _ => False
  end.
Proof. vm_compute. repeat split. Qed.

(** C2, as stated: under the limit 3 the stop reason of the run that
    reaches the limit is not the text of the design document. *)
Lemma limit_reason_counterexample :
  Run (controller memcluster.one_node 3) "uid-0" [] [bind 0; bind 1; bind 2]
    = Ret (set_stop (Chan true 1 1)
             (set_schedulers Cancelled (after 3 [bind 0; bind 1; bind 2])),
           Returned None) ∧
  length (Pods (status (after 3 [bind 0; bind 1; bind 2]))) = 3 ∧
  StopReason (status (after 3 [bind 0; bind 1; bind 2]))
    = "LimitReached: Maximum number of pods simulated: 3" ∧
  StopReason (status (after 3 [bind 0; bind 1; bind 2]))
    ≠ "LimitReached: Maximum number of 3 simulated".
Proof.
  split; [vm_compute; reflexivity|].
  split; [vm_compute; reflexivity|].
  assert (StopReason (status (after 3 [bind 0; bind 1; bind 2]))
          = "LimitReached: Maximum number of pods simulated: 3") as ->
    by (vm_compute; reflexivity).
  split; [reflexivity | discriminate].
Qed.

(** The third bind under the limit 3. *)
Lemma Bind_limit_reason_witness :
  ∃ c', Bind (after 3 [bind 0; bind 1])
          (corev1.set_Name "web-2" memcluster.web) "node-1" "default-scheduler" "uid-3"
          = Ret (c', None) ∧
        StopReason (status c') = "LimitReached: Maximum number of pods simulated: 3".
Proof.
  destruct (Bind_limit_reason (after 3 [bind 0; bind 1])
               (corev1.set_Name "web-2" memcluster.web) "node-1" "default-scheduler" "uid-3"
               (corev1.set_SchedulerName "default-scheduler"
                  (corev1.set_UID "uid-2"
                     (corev1.set_Annotations
                        (Some {[podProvisioner := "default-scheduler"]})
                        (corev1.set_NodeName "" (corev1.set_Name "web-2" memcluster.web)))))
               (externalkubeclient (after 3 [bind 0; bind 1; bind 2])))
    as (c' & HB & _ & H3).
  - split; vm_compute; reflexivity.
  - vm_compute; reflexivity.
  - vm_compute; reflexivity.
  - vm_compute; reflexivity.
  - vm_compute. split; [reflexivity | discriminate].
  - exists c'. split; [exact HB|]. apply H3. vm_compute; reflexivity.
Defined.

(** No limit, five accepted binds, then instance 5 is rejected for lack of
    cpu. *)
Lemma Update_stops_iff_terminal_witness :
  ∃ c', Update (after 0 [bind 0; bind 1; bind 2; bind 3; bind 4])
          (rejected 5 "Insufficient cpu") (unschedulable "Insufficient cpu")
          "default-scheduler" = Ret (c', None) ∧
        StopReason (status c') = "Unschedulable: Insufficient cpu" ∧
        length (Pods (status c')) = 5 ∧
        ch_sent (stop c') = 1.
Proof.
  destruct (Update_stops_iff_terminal (after 0 [bind 0; bind 1; bind 2; bind 3; bind 4])
              (rejected 5 "Insufficient cpu") (unschedulable "Insufficient cpu")
              "default-scheduler") as [_ Hrun].
  destruct Hrun as (c' & HU & Hshape & Hiff).
  - split; vm_compute; reflexivity.
  - vm_compute; reflexivity.
  - assert (corev1.PodCondition.Type_ (unschedulable "Insufficient cpu") = corev1.PodScheduled ∧
            corev1.PodCondition.Status (unschedulable "Insufficient cpu") = corev1.ConditionFalse ∧
            corev1.PodCondition.Reason (unschedulable "Insufficient cpu") = "Unschedulable" ∧
            ∃ m, metav1.Annotations (corev1.ObjectMeta (rejected 5 "Insufficient cpu")) = Some m ∧
                 is_Some (m !! podProvisioner)) as Hsh.
    { split; [reflexivity|]. split; [reflexivity|]. split; [reflexivity|].
      exists {[podProvisioner := corev1.DefaultSchedulerName]}. split; [reflexivity|].
      exists corev1.DefaultSchedulerName. vm_compute. reflexivity. }
    destruct (Hshape Hsh) as (Hreason & Hpods & _).
    exists c'. split; [exact HU|]. split; [exact Hreason|].
    split; [rewrite Hpods; vm_compute; reflexivity|].
    apply Hiff in Hsh. rewrite Hsh. vm_compute. reflexivity.
Defined.

(** C4 on the code: a second terminal update is not a no-op. After the
    first rejection has stopped the run (stop reason recorded, controller
    closed, one signal sent), [Update] on a second one overwrites the stop
    reason and sends on [stop] again; with both updates delivered while
    [Run] waits, [Run] receives one signal and returns nil, closing [stop]
    over the second sender, which is still parked and panics. The same
    happens when one update carries two terminal conditions. *)
Lemma Update_twice_signals_twice :
  closed (after 0 [reject 0 "no node"]) = true ∧
  stopped (after 0 [reject 0 "no node"]) = true ∧
  StopReason (status (after 0 [reject 0 "no node"])) = "Unschedulable: no node" ∧
  ch_sent (stop (after 0 [reject 0 "no node"])) = 1 ∧
  Update (after 0 [reject 0 "no node"]) (rejected 0 "still none")
    (unschedulable "still none") "default-scheduler"
    = Ret (after 0 [reject 0 "no node"; reject 0 "still none"], None) ∧
  StopReason (status (after 0 [reject 0 "no node"; reject 0 "still none"]))
    = "Unschedulable: still none" ∧
  ch_sent (stop (after 0 [reject 0 "no node"; reject 0 "still none"])) = 2 ∧
  Run (controller memcluster.one_node 0) "uid-0" []
    [reject 0 "no node"; reject 0 "still none"]
    = Ret (set_stop (Chan true 2 1)
             (set_schedulers Cancelled (after 0 [reject 0 "no node"; reject 0 "still none"])),
           Returned None) ∧
  Run (controller memcluster.one_node 0) "uid-0" []
    [PodUpdated (rejected 0 "")
       (corev1.with_Status
          {| corev1.Phase := "Pending";
             corev1.Conditions := [unschedulable "no node"; unschedulable "still none"] |}
          (rejected 0 ""))]
    = Ret (set_stop (Chan true 2 1)
             (set_schedulers Cancelled (after 0 [reject 0 "no node"; reject 0 "still none"])),
           Returned None) ∧
  parked (Chan true 2 1) = 1 ∧
  parked_sender (Chan true 2 1) = Some "send on closed channel".
Proof. split_and!; vm_compute; reflexivity. Qed.

(** The engine picks a node the strategy does not know. *)
Lemma Bind_projection_error_witness :
  Run (controller memcluster.one_node 3) "uid-0" []
    [BindCall (corev1.set_Name "web-0" memcluster.web) "node-2" "uid-1"]
    = Ret (after 3 [], Waiting) ∧
  status (after 3 []) = {| Pods := []; StopReason := "" |} ∧
  simulated (after 3 []) = 1%Z.
Proof.
  destruct (Bind_projection_error (after 3 [])
               (corev1.set_Name "web-0" memcluster.web) "node-2" "default-scheduler" "uid-1"
               (corev1.set_SchedulerName "default-scheduler"
                  (corev1.set_UID "uid-0"
                     (corev1.set_Annotations
                        (Some {[podProvisioner := "default-scheduler"]})
                        (corev1.set_NodeName "" (corev1.set_Name "web-0" memcluster.web)))))
               (externalkubeclient (after 3 [])) "node node-2 not found")
    as (_ & Hst & Hsim & _ & _ & _ & Hrun).
  - vm_compute; reflexivity.
  - vm_compute; reflexivity.
  - destruct (Hrun memcluster.one_node memcluster.web 3%Z "uid-0") as [HR Hst'].
    + vm_compute; reflexivity.
    + split; [refine (eq_trans HR _); vm_compute; reflexivity|].
      split; vm_compute; reflexivity.
Defined.


(** Three calls of [Close] on a new controller. *)
Lemma Close_idempotent_witness :
  ∃ c1, Close (controller memcluster.one_node 3) = Ret c1 ∧
        Close c1 = Ret c1 ∧
        Close_times 3 (controller memcluster.one_node 3) = Ret c1 ∧
        schedulerCh c1 = Chan true 0 0 ∧ informerStopCh c1 = Chan true 0 0.
Proof.
  destruct (Close_idempotent (controller memcluster.one_node 3))
    as (c1 & H1 & Hs & Hi & _ & _ & H2 & Hn).
  - split; reflexivity.
  - exists c1. split; [exact H1|]. split; [exact H2|]. split; [exact (Hn 2)|].
    split; [exact Hs | exact Hi].
Defined.

(** Three instances in a row. *)
Lemma nextPod_unique_instances_witness :
  (λ p, metav1.Name (corev1.ObjectMeta p))
    <$> (seeds (controller memcluster.one_node 0) ["uid-0"; "uid-1"; "uid-2"]).2
  = ["web-0"; "web-1"; "web-2"] ∧
  NoDup ((λ p, metav1.Name (corev1.ObjectMeta p))
           <$> (seeds (controller memcluster.one_node 0) ["uid-0"; "uid-1"; "uid-2"]).2).
Proof.
  destruct (nextPod_unique_instances (controller memcluster.one_node 0) "uid-0")
    as (_ & _ & _ & Hnames).
  destruct (Hnames ["uid-0"; "uid-1"; "uid-2"]) as [Heq Hnodup].
  - reflexivity.
  - unfold int_max. simpl. lia.
  - split; [rewrite Heq; vm_compute; reflexivity | exact Hnodup].
Defined.

(** C9, as stated: under a limit that does not fit in 32 bits the
    replicas of the report are not the limit. *)
Lemma Report_replicas_counterexample :
  maxSimulated (controller memcluster.one_node 2147483648) = 2147483648%Z ∧
  Replicas (ReviewSpec (Report GetReport (controller memcluster.one_node 2147483648)).2)
    = (-2147483648)%Z ∧
  Replicas (ReviewSpec (Report GetReport (controller memcluster.one_node 2147483648)).2)
    ≠ maxSimulated (controller memcluster.one_node 2147483648).
Proof. split; [reflexivity|]. split; [reflexivity|]. discriminate. Qed.

(** Two calls of [Report] under the limit 3, and the call that follows a
    run under the limit 1. *)
Lemma Report_memoized_witness :
  let c' := set_stop (Chan true 1 1) (set_schedulers Cancelled (after 1 [bind 0])) in
  (∃ r c1,
     Report GetReport (controller memcluster.one_node 3) = (c1, r) ∧
     Report GetReport c1 = (c1, r) ∧
     Replicas (ReviewSpec r) = 3%Z ∧
     ReviewStatus_ r = ([memcluster.web], {| Pods := []; StopReason := "" |})) ∧
  Run (controller memcluster.one_node 1) "uid-0" [] [bind 0] = Ret (c', Returned None) ∧
  (Report GetReport c').2
    = set_Replicas (int32 1) (GetReport [memcluster.web] (status c')) ∧
  StopReason (status c') = "LimitReached: Maximum number of pods simulated: 1".
Proof.
  intros c'.
  assert (Run (controller memcluster.one_node 1) "uid-0" [] [bind 0]
          = Ret (c', Returned None)) as HRun by (vm_compute; reflexivity).
  destruct (Report_memoized GetReport (controller memcluster.one_node 3))
    as (H1 & _ & H3 & H4 & _ & Hfinal).
  - reflexivity.
  - split.
    { eexists _, _. split; [exact H1|]. split; [rewrite H1 in H4; exact H4|].
      split; [apply H3; unfold is_int32; simpl; lia | reflexivity]. }
    split; [exact HRun|].
    split; [|vm_compute; reflexivity].
    rewrite (Hfinal memcluster.one_node memcluster.web 1%Z "uid-0" [] [bind 0] c'
               (Returned None) HRun).
    reflexivity.
Defined.

(** The synced resources are written, cleaned and read back. *)
Lemma Clean_keeps_entry_witness :
  ∃ fs,
    cache.diskCache_Set hash join {| cache.directory := "/tmp/cc" |} "resources" bytes disk
      = (fs, None) ∧
    cache.diskCache_Clean {| cache.directory := "/tmp/cc" |} "resources" fs = (fs, None) ∧
    cache.diskCache_Get hash join {| cache.directory := "/tmp/cc" |} "resources" fs
      = inl bytes.
Proof.
  exists (cache.diskCache_Set hash join {| cache.directory := "/tmp/cc" |}
            "resources" bytes disk).1.
  split; [vm_compute; reflexivity|].
  destruct (Clean_keeps_entry hash join {| cache.directory := "/tmp/cc" |} "resources"
              (cache.diskCache_Set hash join {| cache.directory := "/tmp/cc" |}
                 "resources" bytes disk).1) as [Hclean Hget].
  split; [exact Hclean|].
  apply (Hget "resources" bytes disk). vm_compute; reflexivity.
Defined.

(** * Further properties of the code *)

(** ** The run, whatever the limit *)

Section run_facts.

Context {C : Type} `{!Cluster C} {ReviewSpecRest ReviewStatus : Type}.

#[local] Abbreviation controller := (ClusterCapacity C ReviewSpecRest ReviewStatus).

Implicit Types c : controller.

Lemma Update_waiting c pod cond sn :
  waiting c → ∃ c', Update c pod cond sn = Ret (c', None) ∧ waiting c'.
Proof.
  intros Hw. destruct (terminal pod cond) eqn:Ht.
  - destruct Hw as (Hl & Hsch & Hopen & Hrecv & Hflag & Hrun).
    eexists. split; [apply Update_terminal; done|].
    apply terminal_spec in Ht as (_ & _ & Hreason & _).
    unfold waiting. simpl. rewrite Hreason.
    split_and!; try done. lia.
  - exists c. split; [by apply Update_ignored | done].
Qed.

Lemma UpdateFunc_range_waiting sn pod conds c :
  waiting c → ∃ c', UpdateFunc_range c sn pod conds = Ret c' ∧ waiting c'.
Proof.
  revert c. induction conds as [|cond conds IH]; intros c Hw; simpl.
  - by exists c.
  - case_bool_decide.
    + destruct (Update_waiting c pod cond sn Hw) as (c' & -> & Hw').
      rewrite !bind_Ret. by apply IH.
    + rewrite bind_Ret. by apply IH.
Qed.

Lemma nextPod_waiting c uid : waiting c → waiting (nextPod c uid).1.
Proof.
  intros ([Hl1 Hl2] & Hsch & Hopen & Hrecv & Hflag & Hrun).
  pose proof (nextPod_frame c uid) as (Hf1 & Hf2 & Hf3 & Hf4 & Hf5 & Hf6 & Hf7).
  pose proof (nextPod_frame_rest c uid) as (Hg1 & _).
  unfold waiting, lifecycle. rewrite Hf2, Hf4, Hf5, Hf6, Hf7, Hg1. by split_and!.
Qed.

(** [Bind] does not look at the flag [closed]: it keeps the invariant on
    a controller that is closed as on one that is open. *)
Lemma Bind_waiting c p node sn uid :
  waiting c → ∃ c' st, Bind c p node sn uid = Ret (c', st) ∧ waiting c'.
Proof.
  intros Hw. pose proof Hw as (Hl & Hsch & Hopen & Hrecv & Hflag & Hrun).
  unfold Bind. destruct (pods_Get _ _ _) as [pod|err].
  2:{ by eexists _, _. }
  destruct (strategy_Add _ _) as [cl [err|]].
  { eexists _, _. split; [done|]. done. }
  assert (Forall (λ p, corev1.Phase (corev1.Status p) = corev1.PodRunning)
            (Pods (status c) ++
             [corev1.set_Phase corev1.PodRunning
                (corev1.set_NodeName node (corev1.DeepCopy pod))])) as Hrun'.
  { apply Forall_app. split; [done|]. by constructor. }
  destruct (bool_decide _ && bool_decide _) eqn:Hlim.
  - rewrite Close_lifecycle by (by eapply lifecycle_frame).
    rewrite bind_Ret, send_open by done. rewrite bind_Ret.
    eexists _, _. split; [done|]. unfold waiting. simpl.
    split_and!; try done. lia.
  - match goal with |- context [nextPod ?c0 uid] =>
      assert (waiting c0) as Hw0 by done;
      pose proof (nextPod_waiting c0 uid Hw0) as Hw';
      destruct (nextPod c0 uid) as [c' nerr] end.
    simpl in *. destruct nerr; eexists _, _; (split; [done|]); done.
Qed.

Lemma deliver_waiting c e :
  waiting c → ∃ c' l, deliver c e = Ret (c', l) ∧ waiting c'.
Proof.
  intros Hw. destruct e as [p node uid|old new]; simpl.
  - destruct (Bind_waiting c p node corev1.DefaultSchedulerName uid Hw)
      as (c' & st & -> & Hw').
    by exists c', [st].
  - unfold OnUpdate, UpdateFunc. destruct (_ && _).
    + destruct (UpdateFunc_range_waiting corev1.DefaultSchedulerName new
                  (corev1.Conditions (corev1.Status new)) c Hw) as (c' & -> & Hw').
      by exists c', [].
    + by exists c, [].
Qed.

Lemma engine_waiting evs c :
  waiting c → ∃ c' l, engine c evs = Ret (c', l) ∧ waiting c'.
Proof.
  revert c. induction evs as [|e evs IH]; intros c Hw; simpl.
  - by exists c, [].
  - destruct (deliver_waiting c e Hw) as (c1 & l1 & -> & Hw1).
    destruct (IH c1 Hw1) as (c2 & l2 & He & Hw2).
    rewrite bind_Ret. simpl. rewrite He, bind_Ret. simpl. by exists c2, (l1 ++ l2).
Qed.

(** [Run] gets to the first [nextPod] whatever happens during the sleep. *)
Lemma Run_start_waiting cl pod n uid early :
  ∃ c1 e, Run_start (ready cl pod n : controller) uid early = Ret (c1, e) ∧ waiting c1.
Proof.
  unfold Run_start.
  match goal with |- context [engine ?c0 early] =>
    assert (waiting c0) as Hw0 by (by split_and!);
    destruct (engine_waiting early c0 Hw0) as (c0' & l & -> & Hw) end.
  rewrite bind_Ret. simpl.
  pose proof (nextPod_waiting c0' uid Hw) as Hw1.
  destruct (nextPod c0' uid) as [c1 e]. by exists c1, e.
Qed.


(** X2. Every pod in the placement sequence of a run is in phase
    [Running], at every point of the run. *)
Theorem placements_are_running cl pod n uid early evs c1 c2 log :
  Run_start (ready cl pod n : controller) uid early = Ret (c1, None) →
  engine c1 evs = Ret (c2, log) →
  Forall (λ p, corev1.Phase (corev1.Status p) = corev1.PodRunning) (Pods (status c2)).
Proof.
  intros Hs He. destruct (Run_start_waiting cl pod n uid early) as (c1' & e & Hs' & Hw).
  rewrite Hs in Hs'. injection Hs' as <- <-.
  destruct (engine_waiting evs c1 Hw) as (c2' & log' & He' & Hw2).
  rewrite He in He'. injection He' as <- <-. apply Hw2.
Qed.

(** The three ways [Run] comes back. *)
Lemma Run_cases cl pod n uid early evs c' r :
  Run (ready cl pod n : controller) uid early evs = Ret (c', r) →
  match r with
  | Returned None =>
      (∃ c1, Run_start (ready cl pod n : controller) uid early = Ret (c1, None)) ∧
      closed c' = true ∧ StopReason (status c') ≠ "" ∧
      ch_closed (stop c') = true ∧ ch_recv (stop c') = 1 ∧ 1 ≤ ch_sent (stop c') ∧
      schedulers c' = Cancelled ∧
      schedulerCh c' = Chan true 0 0 ∧ informerStopCh c' = Chan true 0 0
  | Returned (Some err) =>
      ∃ c1 e, Run_start (ready cl pod n : controller) uid early = Ret (c1, Some e) ∧
           err = "Unable to create next pod to schedule: " +:+ e ∧
           status c' = status c1 ∧
           closed c' = true ∧ schedulers c' = Cancelled ∧
           ch_closed (stop c') = true ∧ ch_recv (stop c') = 0
  | Waiting =>
      (∃ c1, Run_start (ready cl pod n : controller) uid early = Ret (c1, None)) ∧
      closed c' = false ∧ StopReason (status c') = "" ∧
      stop c' = make_chan ∧ schedulers c' = Running
  end.
Proof.
  unfold Run. destruct (Run_start_waiting cl pod n uid early) as (c1 & e & -> & Hw).
  rewrite bind_Ret. destruct e as [err|].
  - destruct Hw as (Hl & _ & Hopen & Hrecv & Hflag & _).
    rewrite Close_lifecycle by done. rewrite bind_Ret. simpl.
    unfold close. rewrite Hopen, bind_Ret. intros [= <- <-]. simpl.
    exists c1, err. by split_and!.
  - destruct (engine_waiting evs c1 Hw) as (c2 & log & -> & Hw2).
    rewrite bind_Ret. simpl.
    destruct Hw2 as ([Hl1 Hl2] & Hsch & Hopen & Hrecv & Hflag & _).
    destruct (stop c2) as [cl2 sent recv] eqn:Hstop. simpl in *. subst cl2 recv.
    unfold recv. simpl.
    destruct (closed c2) eqn:Hc; destruct Hflag as [Hreason Hsent].
    + rewrite decide_True by lia. simpl. unfold close. simpl.
      intros [= <- <-]. simpl.
      split_and!; try done; try lia. by exists c1.
    + subst sent. simpl. intros [= <- <-]. rewrite Hstop. split_and!; try done.
      by exists c1.
Qed.

(** X3. What [Run] has done when it comes back. With nil: the controller
    is closed, a stop reason is recorded, one signal was received of the
    one or more that were sent, [stop] and both channels of [Close] are
    closed and the scheduler is cancelled. With an error: the first
    [nextPod] failed, the error is the creation error under the text of
    [Run], the status is as that [nextPod] found it, and everything is
    closed with nothing received. Still waiting: instance 0 was created,
    the controller is open, no stop reason, no signal, the scheduler
    runs. *)
Theorem Run_results cl pod n uid early evs c' r :
  Run (ready cl pod n : controller) uid early evs = Ret (c', r) →
  match r with
  | Returned None =>
      (∃ c1, Run_start (ready cl pod n : controller) uid early = Ret (c1, None)) ∧
      closed c' = true ∧ StopReason (status c') ≠ "" ∧
      ch_closed (stop c') = true ∧ ch_recv (stop c') = 1 ∧ 1 ≤ ch_sent (stop c') ∧
      schedulers c' = Cancelled ∧
      schedulerCh c' = Chan true 0 0 ∧ informerStopCh c' = Chan true 0 0
  | Returned (Some err) =>
      ∃ c1 e, Run_start (ready cl pod n : controller) uid early = Ret (c1, Some e) ∧
           err = "Unable to create next pod to schedule: " +:+ e ∧
           status c' = status c1 ∧
           closed c' = true ∧ schedulers c' = Cancelled ∧
           ch_closed (stop c') = true ∧ ch_recv (stop c') = 0
  | Waiting =>
      (∃ c1, Run_start (ready cl pod n : controller) uid early = Ret (c1, None)) ∧
      closed c' = false ∧ StopReason (status c') = "" ∧
      stop c' = make_chan ∧ schedulers c' = Running
  end.
Proof. apply Run_cases. Qed.

(** X4. [Run] itself never panics: once instance 0 is created it returns
    nil as soon as one signal was sent on [stop], and waits while none
    was. It closes [stop] over the senders whose signal it did not take:
    a sender is left to panic, with [send on closed channel], exactly
    when two or more signals were sent. *)
Theorem parked_sender_iff_two_signals cl pod n uid early evs c1 c2 log :
  Run_start (ready cl pod n : controller) uid early = Ret (c1, None) →
  engine c1 evs = Ret (c2, log) →
  ∃ c' r, Run (ready cl pod n : controller) uid early evs = Ret (c', r) ∧
    (r = Returned None ↔ 1 ≤ ch_sent (stop c2)) ∧
    (r = Waiting ↔ ch_sent (stop c2) = 0) ∧
    ch_sent (stop c') = ch_sent (stop c2) ∧
    parked (stop c') = ch_sent (stop c2) - 1 ∧
    (parked_sender (stop c') = Some "send on closed channel" ↔ 2 ≤ ch_sent (stop c2)).
Proof.
  intros Hs He. destruct (Run_start_waiting cl pod n uid early) as (c1' & e & Hs' & Hw).
  rewrite Hs in Hs'. injection Hs' as <- <-.
  destruct (engine_waiting evs c1 Hw) as (c2' & log' & He' & Hw2).
  rewrite He in He'. injection He' as <- <-.
  unfold Run. rewrite Hs, bind_Ret, He, bind_Ret. simpl.
  destruct Hw2 as (_ & _ & Hopen & Hrecv & _).
  destruct (stop c2) as [cl2 sent recv] eqn:Hstop. simpl in *. subst cl2 recv.
  unfold recv. simpl. destruct (decide (0 < sent)) as [Hpos|Hzero].
  - simpl. unfold close. simpl.
    eexists _, _. split; [done|]. unfold parked_sender, parked. simpl.
    split_and!; try done; try lia.
    + split; [done | lia].
    + case_bool_decide; split; try done; lia.
  - eexists _, _. split; [done|]. rewrite Hstop. unfold parked_sender, parked. simpl.
    split_and!; try done; try lia.
    + split; [intros _; lia | done].
    + split; [intros [=] | intros; exfalso; lia].
Qed.

(** X5. A bind whose lookup fails returns the error status with the text
    [Unable to bind: ] and leaves the controller as it is: the events
    after it have the effect they would have had without it, and the
    engine has one more status, the error. *)
Theorem Bind_lookup_error_transparent c p node sn uid err :
  pods_Get (externalkubeclient c) (metav1.Namespace (corev1.ObjectMeta p))
    (metav1.Name (corev1.ObjectMeta p)) = inr err →
  Bind c p node sn uid =
    Ret (c, Some (schedframework.NewStatus schedframework.Error ("Unable to bind: " +:+ err))) ∧
  ∀ evs,
    engine c (BindCall p node uid :: evs) =
      match engine c evs with
      | Ret (c', log) =>
          Ret (c', Some (schedframework.NewStatus schedframework.Error
                           ("Unable to bind: " +:+ err)) :: log)
      | Panic msg => Panic msg
      end.
Proof.
  intros Hget.
  assert (∀ sn', Bind c p node sn' uid =
    Ret (c, Some (schedframework.NewStatus schedframework.Error ("Unable to bind: " +:+ err))))
    as HB.
  { intros sn'. unfold Bind. by rewrite Hget. }
  split; [apply HB|]. intros evs. simpl. rewrite HB, !bind_Ret. simpl.
  by destruct (engine c evs) as [[c' log]|].
Qed.

Lemma Bind_unlimited k c p node sn uid c' :
  (Z.of_nat k + 1 < int_max)%Z → unlimited k c →
  Bind c p node sn uid = Ret (c', None) → unlimited (S k) c'.
Proof.
  intros Hk (Hmax & Hl & Hc & Hlen & Hsim & Hreason & Hstop).
  unfold Bind. destruct (pods_Get _ _ _) as [pod|err]; [|done].
  destruct (strategy_Add _ _) as [cl [err|]]; [done|].
  simpl. rewrite bool_decide_eq_false_2 by lia. simpl.
  match goal with |- context [nextPod ?c0 uid] =>
    pose proof (nextPod_frame c0 uid) as (Hf1 & Hf2 & Hf3 & Hf4 & Hf5 & Hf6 & Hf7);
    destruct (nextPod c0 uid) as [c1 nerr] end.
  simpl in *. destruct nerr; [done|]. intros [= <-].
  destruct Hl as [Hl1 Hl2]. unfold unlimited, lifecycle.
  rewrite Hf1, Hf2, Hf3, Hf4, Hf5, Hf6, Hf7, Hc, Hsim. simpl.
  rewrite length_app. simpl.
  rewrite int_add_small by (unfold is_int, int_min, int_max in *; lia).
  rewrite Hc in Hl1, Hl2. split_and!; try done; lia.
Qed.

Lemma engine_unlimited evs k c c' log :
  (Z.of_nat (k + length evs) < int_max)%Z → unlimited k c →
  forallb is_BindCall evs = true →
  engine c evs = Ret (c', log) → Forall (λ st, st = None) log →
  unlimited (k + length evs) c'.
Proof.
  revert k c log. induction evs as [|e evs IH]; intros k c log Hk Hu Hall; simpl.
  - intros [= <- <-] _. by rewrite Nat.add_0_r.
  - simpl in Hall. apply andb_true_iff in Hall as [He Hall].
    destruct e as [p node uid|]; [|done]. simpl.
    destruct (Bind c p node corev1.DefaultSchedulerName uid) as [[c1 st]|] eqn:HB; [|done].
    rewrite !bind_Ret. simpl.
    destruct (engine c1 evs) as [[c2 l2]|] eqn:Hengine; [|done].
    rewrite bind_Ret. simpl. intros [= <- <-] Hlog.
    apply Forall_cons in Hlog as [-> Hlog].
    replace (k + S (length evs)) with (S k + length evs) by lia.
    eapply IH; [simpl in Hk; lia| |done|done|done].
    eapply Bind_unlimited; [simpl in Hk; lia|done|done].
Qed.

(** X6. Without a limit (a limit of zero or below) accepted binds never
    stop the run: after any number of them [Run] still waits, with one
    placement per bind, the serial counter one ahead, no stop reason and
    no signal. *)
Theorem unlimited_run_keeps_going cl pod n uid evs :
  (n ≤ 0)%Z → (Z.of_nat (length evs) < int_max)%Z →
  all_accepted (ready cl pod n : controller) uid evs →
  ∃ c', Run (ready cl pod n : controller) uid [] evs = Ret (c', Waiting) ∧
    length (Pods (status c')) = length evs ∧
    simulated c' = (Z.of_nat (length evs) + 1)%Z ∧
    StopReason (status c') = "" ∧ closed c' = false ∧ stop c' = make_chan.
Proof.
  intros Hn Hlen (c1 & c2 & log & Hall & Hs & He & Hlog).
  pose proof (Run_start_ready cl pod n uid _ _ Hs)
    as (H1 & H2 & H3 & H4 & H5 & H6 & H7 & _).
  assert (unlimited 0 c1) as Hu.
  { unfold unlimited, lifecycle. rewrite H1, H2, H3, H4, H5, H6, H7. by split_and!. }
  pose proof (engine_unlimited evs 0 c1 c2 log Hlen Hu Hall He Hlog)
    as (_ & _ & Hc & Hl & Hsim & Hreason & Hstop).
  exists c2. unfold Run. rewrite Hs, bind_Ret, He, bind_Ret. simpl. rewrite Hstop. simpl.
  by split_and!.
Qed.

Lemma engine_app evs1 evs2 c :
  engine c (evs1 ++ evs2) =
    match engine c evs1 with
    | Ret (c1, l1) =>
        match engine c1 evs2 with
        | Ret (c2, l2) => Ret (c2, l1 ++ l2)
        | Panic msg => Panic msg
        end
    | Panic msg => Panic msg
    end.
Proof.
  revert c. induction evs1 as [|e evs1 IH]; intros c; simpl.
  - by destruct (engine c evs2) as [[c2 l2]|].
  - destruct (deliver c e) as [[c0 l0]|]; [|done].
    rewrite !bind_Ret. simpl. rewrite IH.
    destruct (engine c0 evs1) as [[c1 l1]|]; [|done].
    rewrite bind_Ret. simpl.
    destruct (engine c1 evs2) as [[c2 l2]|]; [|done].
    rewrite !bind_Ret. simpl. by rewrite app_assoc.
Qed.

(** X7. A rejection ends the run. If the controller is still open after
    some events, and the informer then reports an update of a pod of this
    scheduler whose one condition is the terminal one, [Run] returns nil:
    the placements are those made so far and the stop reason is the
    reason, a colon and a blank, and the message of the condition. *)
Theorem rejection_stops_run cl pod n uid early evs c1 c2 log old new cond :
  Run_start (ready cl pod n : controller) uid early = Ret (c1, None) →
  engine c1 evs = Ret (c2, log) → closed c2 = false →
  FilterFunc corev1.DefaultSchedulerName old = true →
  FilterFunc corev1.DefaultSchedulerName new = true →
  corev1.Conditions (corev1.Status new) = [cond] →
  terminal new cond = true →
  ∃ c', Run (ready cl pod n : controller) uid early (evs ++ [PodUpdated old new])
          = Ret (c', Returned None) ∧
    Pods (status c') = Pods (status c2) ∧
    StopReason (status c') =
      corev1.PodCondition.Reason cond +:+ ": " +:+ corev1.PodCondition.Message cond.
Proof.
  intros Hs He Hc Hold Hnew Hconds Hterm.
  destruct (Run_start_waiting cl pod n uid early) as (c1' & e & Hs' & Hw).
  rewrite Hs in Hs'. injection Hs' as <- <-.
  destruct (engine_waiting evs c1 Hw) as (c2' & log' & He' & Hw2).
  rewrite He in He'. injection He' as <- <-.
  destruct Hw2 as (Hl & Hsch & Hopen & Hrecv & Hflag & _).
  rewrite Hc in Hflag. destruct Hflag as [_ Hsent].
  unfold Run. rewrite Hs, bind_Ret, engine_app, He. simpl.
  unfold OnUpdate, UpdateFunc. rewrite Hnew, Hold, Hconds. simpl.
  assert (bool_decide (corev1.PodCondition.Type_ cond = corev1.PodScheduled) = true) as ->.
  { apply bool_decide_eq_true. by apply terminal_spec in Hterm as (? & _). }
  rewrite (Update_terminal c2 new cond corev1.DefaultSchedulerName Hl Hopen Hterm).
  rewrite !bind_Ret. simpl.
  unfold recv. simpl. rewrite Hsent, Hrecv. simpl.
  eexists. split; [reflexivity|]. by simpl.
Qed.

(** X8. Every instance [nextPod] builds is one the watcher acts on: it
    passes the filter of the controller's scheduler and carries the
    annotation [cc.kubernetes.io/provisioned-by], so that [Update] stops
    on it for any [PodScheduled] condition with status [False] and reason
    [Unschedulable], whatever status the pod has by then. *)
Theorem seeded_instance_is_watched c uid pod :
  lastSimulatedPod (nextPod c uid).1 = Some pod →
  FilterFunc (defaultSchedulerName c) pod = true ∧
  metav1.HasAnnotation (corev1.ObjectMeta pod) podProvisioner = true ∧
  ∀ st msg,
    FilterFunc (defaultSchedulerName c) (corev1.with_Status st pod) = true ∧
    terminal (corev1.with_Status st pod)
      (corev1.PodCondition.mk corev1.PodScheduled corev1.ConditionFalse "Unschedulable" msg)
      = true.
Proof.
  intros Hlast.
  destruct (nextPod_instance c uid) as (pod' & Hlast' & _ & _ & _ & _ & Hsched & Hann & _).
  rewrite Hlast in Hlast'. injection Hlast' as <-.
  assert (metav1.HasAnnotation (corev1.ObjectMeta pod) podProvisioner = true) as Hhas.
  { unfold metav1.HasAnnotation. rewrite Hann. apply bool_decide_eq_true.
    rewrite lookup_insert_eq. by eexists. }
  assert (FilterFunc (defaultSchedulerName c) pod = true) as Hf.
  { unfold FilterFunc. by apply bool_decide_eq_true. }
  split; [done|]. split; [done|]. intros st msg. split; [done|].
  unfold terminal. simpl. by rewrite Hhas.
Qed.

(** X9. The informer handler leaves the controller alone unless both the
    old and the new object belong to the scheduler and the new one carries
    a terminal condition: an update of a pod of another scheduler, of a
    pod without the annotation, or of a pod none of whose conditions is
    terminal changes nothing and sends nothing. *)
Theorem OnUpdate_inert c sn old new :
  FilterFunc sn new = false ∨ FilterFunc sn old = false ∨
  metav1.HasAnnotation (corev1.ObjectMeta new) podProvisioner = false ∨
  Forall (λ cond, terminal new cond = false) (corev1.Conditions (corev1.Status new)) →
  OnUpdate c sn old new = Ret c.
Proof.
  intros Hcase. unfold OnUpdate.
  destruct (FilterFunc sn new) eqn:Hnew; [|done].
  destruct (FilterFunc sn old) eqn:Hold; [|done]. simpl.
  assert (Forall (λ cond, terminal new cond = false)
            (corev1.Conditions (corev1.Status new))) as Hall.
  { destruct Hcase as [?|[?|[Hann|?]]]; try done.
    apply Forall_forall. intros cond _. unfold terminal. rewrite Hann.
    apply andb_false_r. }
  unfold UpdateFunc. clear Hcase. revert Hall.
  generalize (corev1.Conditions (corev1.Status new)) as conds.
  induction 1 as [|cond conds Hcond _ IH]; [done|].
  simpl. rewrite Update_ignored by done.
  case_bool_decide; rewrite ?bind_Ret; simpl; rewrite ?bind_Ret; apply IH.
Qed.

(** X10. When the store takes the placement but refuses the next
    instance, [Bind] returns the error status with the text
    [Unable to create next pod to schedule: ] although the placement is
    already recorded: the pod has been appended and the serial counter
    has moved on, and the controller stays open. *)
Theorem Bind_seed_error_keeps_placement c p node sn uid pod cl c' err :
  pods_Get (externalkubeclient c) (metav1.Namespace (corev1.ObjectMeta p))
    (metav1.Name (corev1.ObjectMeta p)) = inl pod →
  strategy_Add (externalkubeclient c)
    (corev1.set_Phase corev1.PodRunning (corev1.set_NodeName node (corev1.DeepCopy pod)))
    = (cl, None) →
  ¬ (0 < maxSimulated c ≤ simulated c)%Z →
  nextPod (append_Pods
             (corev1.set_Phase corev1.PodRunning (corev1.set_NodeName node (corev1.DeepCopy pod)))
             (set_externalkubeclient cl c)) uid = (c', Some err) →
  Bind c p node sn uid =
    Ret (c', Some (schedframework.NewStatus schedframework.Error
                     ("Unable to create next pod to schedule: " +:+ err))) ∧
  Pods (status c') =
    Pods (status c) ++
    [corev1.set_Phase corev1.PodRunning (corev1.set_NodeName node (corev1.DeepCopy pod))] ∧
  simulated c' = int_add (simulated c) 1 ∧
  StopReason (status c') = StopReason (status c) ∧
  closed c' = closed c ∧ stop c' = stop c.
Proof.
  intros Hget Hadd Hlim Hnext.
  match type of Hnext with nextPod ?c0 uid = _ =>
    pose proof (nextPod_frame c0 uid) as (Hf1 & Hf2 & Hf3 & Hf4 & Hf5 & Hf6 & Hf7) end.
  rewrite Hnext in Hf1, Hf2, Hf4, Hf5. simpl in *.
  split.
  - unfold Bind. rewrite Hget, Hadd. simpl.
    assert (bool_decide (0 < maxSimulated c)%Z && bool_decide (maxSimulated c ≤ simulated c)%Z
            = false) as ->.
    { apply not_true_is_false. rewrite andb_true_iff, !bool_decide_eq_true. lia. }
    by rewrite Hnext.
  - rewrite Hf2. by split_and!.
Qed.

(** *** The limit, when the engine has the instances of the run alone *)

Lemma seeded_length c : length (seeded c) = Z.to_nat (simulated c).
Proof. unfold seeded. by rewrite length_fmap, length_seq. Qed.

Lemma seeded_mono c c' :
  simulatedPod c' = simulatedPod c → (simulated c ≤ simulated c')%Z →
  seeded c ⊆ seeded c'.
Proof.
  intros Hp Hs x. unfold seeded. rewrite Hp, !list_elem_of_fmap.
  intros (i & -> & Hi). exists i. split; [done|].
  apply elem_of_seq in Hi. apply elem_of_seq. lia.
Qed.


Lemma placed_all (placed names : list string) x :
  NoDup placed → placed ⊆ names → length names ≤ length placed →
  x ∈ names → x ∈ placed.
Proof.
  intros Hnd Hsub Hlen Hx.
  assert (placed ≡ₚ names) as Hp.
  { apply submseteq_length_Permutation; [by apply NoDup_submseteq | done]. }
  by rewrite Hp.
Qed.

Lemma Update_bounded n placed c pod cond sn :
  bounded n placed c →
  ∃ c', Update c pod cond sn = Ret (c', None) ∧ bounded n placed c' ∧
    simulated c' = simulated c ∧ Pods (status c') = Pods (status c).
Proof.
  intros Hb. destruct (terminal pod cond) eqn:Ht.
  - destruct Hb as (Hmax & Hl & Hs & Hsim & Hlen & Hnd & Hsub).
    eexists. split; [apply Update_terminal; done|].
    split; [|done]. unfold bounded, seeded in *. simpl. split_and!; try done; lia.
  - exists c. split; [apply Update_ignored|]; done.
Qed.

Lemma UpdateFunc_range_bounded n placed sn pod conds c :
  bounded n placed c →
  ∃ c', UpdateFunc_range c sn pod conds = Ret c' ∧ bounded n placed c' ∧
    simulated c' = simulated c ∧ Pods (status c') = Pods (status c).
Proof.
  revert c. induction conds as [|cond conds IH]; intros c Hb; simpl.
  - by exists c.
  - case_bool_decide.
    + destruct (Update_bounded n placed c pod cond sn Hb) as (c' & -> & Hb' & Hs & Hp).
      rewrite !bind_Ret. destruct (IH c' Hb') as (c2 & -> & Hb2 & Hs2 & Hp2).
      exists c2. split_and!; try done; congruence.
    + rewrite bind_Ret. by apply IH.
Qed.

Lemma OnUpdate_bounded n placed sn old new c :
  bounded n placed c →
  ∃ c', OnUpdate c sn old new = Ret c' ∧ bounded n placed c' ∧
    simulated c' = simulated c ∧ Pods (status c') = Pods (status c).
Proof.
  intros Hb. unfold OnUpdate, UpdateFunc.
  destruct (_ && _); [by apply UpdateFunc_range_bounded | by exists c].
Qed.

(** A bind of an instance not placed before keeps the counter within the
    limit: at the limit [Bind] seeds nothing. *)
Lemma Bind_bounded n placed c p node sn uid :
  (0 < n ≤ int_max)%Z → bounded n placed c →
  metav1.Name (corev1.ObjectMeta p) ∈ seeded c →
  metav1.Name (corev1.ObjectMeta p) ∉ placed →
  ∃ c' st, Bind c p node sn uid = Ret (c', st) ∧
    bounded n (if places c p node then metav1.Name (corev1.ObjectMeta p) :: placed
               else placed) c'.
Proof.
  intros [Hpos Hmaxn] (Hmax & Hl & Hs & Hsim & Hlen & Hnd & Hsub) Hin Hnew.
  unfold Bind, places. destruct (pods_Get _ _ _) as [pod|err].
  2:{ eexists _, _. split; [done|]. unfold bounded. split_and!; try done; lia. }
  simpl. destruct (strategy_Add _ _) as [cl [err|]]; simpl.
  { eexists _, _. split; [done|]. unfold bounded. split_and!; try done; simpl; lia. }
  assert (NoDup (metav1.Name (corev1.ObjectMeta p) :: placed)) as Hnd'
    by (by constructor).
  assert (metav1.Name (corev1.ObjectMeta p) :: placed ⊆ seeded c) as Hsub'.
  { intros x [->|Hx]%elem_of_cons; [done | by apply Hsub]. }
  destruct (bool_decide _ && bool_decide _) eqn:Hlim.
  - rewrite Close_lifecycle by (by eapply lifecycle_frame).
    rewrite bind_Ret, send_open by done. rewrite bind_Ret.
    eexists _, _. split; [done|].
    unfold bounded. simpl. rewrite length_app. simpl.
    split_and!; try done; lia.
  - simpl in Hlim.
    assert (simulated c < n)%Z as Hlt.
    { apply andb_false_iff in Hlim as [H|H]; apply bool_decide_eq_false in H; lia. }
    match goal with |- context [nextPod ?c0 uid] =>
      pose proof (nextPod_frame c0 uid) as (Hf1 & Hf2 & Hf3 & Hf4 & Hf5 & Hf6 & Hf7);
      pose proof (nextPod_frame_rest c0 uid) as (_ & _ & _ & Hg4 & _);
      destruct (nextPod c0 uid) as [c' nerr] end.
    simpl in *.
    rewrite int_add_small in Hf1 by (unfold is_int, int_min, int_max in *; lia).
    assert (bounded n (metav1.Name (corev1.ObjectMeta p) :: placed) c') as Hb'.
    { destruct Hl as [Hl1 Hl2]. unfold bounded, lifecycle.
      rewrite Hf1, Hf2, Hf3, Hf4, Hf5, Hf6, Hf7. simpl. rewrite length_app. simpl.
      split_and!; try done; try lia.
      etrans; [exact Hsub'|]. apply seeded_mono; [done | lia]. }
    destruct nerr; eexists _, _; (split; [done|]); done.
Qed.


(** Pod updates alone leave the counter and the placements as they are. *)
Lemma engine_updates n placed early c :
  Forall (λ e, is_BindCall e = false) early → bounded n placed c →
  ∃ c' l, engine c early = Ret (c', l) ∧ bounded n placed c' ∧
    simulated c' = simulated c ∧ Pods (status c') = Pods (status c).
Proof.
  intros Hall. revert c. induction Hall as [|e early He _ IH]; intros c Hb.
  - by exists c, [].
  - destruct e as [|old new]; [done|].
    destruct (OnUpdate_bounded n placed corev1.DefaultSchedulerName old new c Hb)
      as (c1 & HU & Hb1 & Hs1 & Hp1).
    destruct (IH c1 Hb1) as (c2 & l2 & He2 & Hb2 & Hs2 & Hp2).
    simpl. rewrite HU, !bind_Ret. simpl. rewrite He2, bind_Ret. simpl.
    eexists c2, _. split_and!; try done; congruence.
Qed.

Lemma Run_start_bounded cl pod n uid early :
  (0 < n ≤ int_max)%Z → Forall (λ e, is_BindCall e = false) early →
  ∃ c1 e, Run_start (ready cl pod n : controller) uid early = Ret (c1, e) ∧
    bounded n [] c1 ∧ Pods (status c1) = [] ∧ simulated c1 = 1%Z.
Proof.
  intros [Hpos Hmaxn] Hall. unfold Run_start.
  match goal with |- context [engine ?c0 early] =>
    assert (bounded n [] c0) as Hb0
      by (unfold bounded; simpl; split_and!; try done; try lia; constructor);
    destruct (engine_updates n [] early c0 Hall Hb0) as (c0' & l & -> & Hb & Hs & Hp) end.
  rewrite bind_Ret. simpl in *.
  destruct Hb as (Hmax & [Hl1 Hl2] & Hopen & Hsim & Hlen & Hnd & Hsub).
  pose proof (nextPod_frame c0' uid) as (Hf1 & Hf2 & Hf3 & Hf4 & Hf5 & Hf6 & Hf7).
  destruct (nextPod c0' uid) as [c1 e]. simpl in *. exists c1, e.
  rewrite Hs in Hf1. change (int_add 0 1) with 1%Z in Hf1. split; [done|].
  unfold bounded, lifecycle. rewrite Hf1, Hf2, Hf3, Hf4, Hf5, Hf6, Hf7, Hp.
  split_and!; try done; try lia. by intros x ?%elem_of_nil.
Qed.


Lemma Bind_nil_places c p node sn uid c' :
  Bind c p node sn uid = Ret (c', None) → places c p node = true.
Proof.
  unfold Bind, places. destruct (pods_Get _ _ _) as [pod|err]; [|done].
  simpl. by destruct (strategy_Add _ _) as [cl [err|]].
Qed.

(** An accepted bind of an instance not placed before: the run is open,
    the bind records the placement and either seeds the next instance or,
    at the limit, stops the run. *)
Lemma Bind_accepting n placed c p node sn uid c' :
  (0 < n ≤ int_max)%Z → accepting n placed c →
  metav1.Name (corev1.ObjectMeta p) ∈ seeded c →
  metav1.Name (corev1.ObjectMeta p) ∉ placed →
  Bind c p node sn uid = Ret (c', None) →
  accepting n (metav1.Name (corev1.ObjectMeta p) :: placed) c'.
Proof.
  intros Hn [Hb Hrun] Hin Hnew HB.
  destruct (Bind_bounded n placed c p node sn uid Hn Hb Hin Hnew) as (c'' & st & HB' & Hb').
  rewrite HB in HB'. injection HB' as <- <-.
  rewrite (Bind_nil_places _ _ _ _ _ _ HB) in Hb'. split; [done|].
  destruct Hn as [Hpos Hmaxn].
  destruct Hb as (Hmax & Hl & Hs & Hsim & Hlen & Hnd & Hsub).
  destruct (closed c) eqn:Hc.
  { destruct Hrun as (Hpn & Hsn & _). exfalso. apply Hnew.
    eapply placed_all; [done | done | | done]. rewrite seeded_length. lia. }
  destruct Hrun as (Hlen1 & Hreason & Hstop).
  revert HB. unfold Bind. destruct (pods_Get _ _ _) as [pod|err]; [|done].
  destruct (strategy_Add _ _) as [cl [err|]]; [done|].
  destruct (bool_decide _ && bool_decide _) eqn:Hlim; simpl in Hlim.
  - apply andb_true_iff in Hlim as [_ Hge]. apply bool_decide_eq_true in Hge.
    rewrite Close_lifecycle by (by eapply lifecycle_frame).
    rewrite bind_Ret. simpl. rewrite Hstop. simpl. intros [= <-]. simpl.
    rewrite length_app. simpl. unfold LimitReached. rewrite Hmax in *.
    split_and!; try done; lia.
  - assert (simulated c < n)%Z as Hlt.
    { apply andb_false_iff in Hlim as [H|H]; apply bool_decide_eq_false in H; lia. }
    match goal with |- context [nextPod ?c0 uid] =>
      pose proof (nextPod_frame c0 uid) as (Hf1 & Hf2 & Hf3 & Hf4 & Hf5 & Hf6 & Hf7);
      destruct (nextPod c0 uid) as [c1 nerr] end.
    simpl in *. destruct nerr; [done|]. intros [= <-].
    rewrite Hf1, Hf2, Hf4, Hf5, Hc. simpl. rewrite length_app. simpl.
    rewrite int_add_small by (unfold is_int, int_min, int_max in *; lia).
    split_and!; try done; lia.
Qed.

Lemma engine_accepting n evs placed c c' log :
  (0 < n ≤ int_max)%Z → accepting n placed c →
  forallb is_BindCall evs = true → trials c placed evs = true →
  engine c evs = Ret (c', log) → Forall (λ st, st = None) log →
  ∃ placed', accepting n placed' c' ∧ length placed' = length evs + length placed.
Proof.
  intros Hn. revert placed c log.
  induction evs as [|e evs IH]; intros placed c log Ha Hall Ht; simpl.
  - intros [= <- <-] _. by exists placed.
  - simpl in Hall. apply andb_true_iff in Hall as [He Hall].
    destruct e as [p node uid|]; [|done].
    apply andb_true_iff in Ht as [Hhead Htail].
    rewrite !andb_true_iff, !bool_decide_eq_true in Hhead.
    destruct Hhead as ((_ & Hin) & Hnew). simpl in Htail |- *.
    destruct (Bind c p node corev1.DefaultSchedulerName uid) as [[c1 st]|] eqn:HB; [|done].
    rewrite !bind_Ret in Htail |- *. simpl in Htail |- *.
    destruct (engine c1 evs) as [[c2 l2]|] eqn:Hengine; [|done].
    rewrite bind_Ret. simpl. intros [= <- <-] Hlog.
    apply Forall_cons in Hlog as [-> Hlog].
    rewrite (Bind_nil_places _ _ _ _ _ _ HB) in Htail.
    destruct (IH (metav1.Name (corev1.ObjectMeta p) :: placed) c1 l2)
      as (placed' & Ha' & Hlen); try done.
    { by eapply Bind_accepting. }
    exists placed'. split; [done|]. simpl in Hlen. lia.
Qed.

(** X23. [Bind] records the pod and stops the run as soon as the serial
    counter has reached the limit. Under a limit [n] above zero, in a run
    in which nothing comes before instance 0 and the engine then binds
    instances of the run, each once, every bind returning nil: there are
    at most [n] binds, and as many placements as binds. After fewer than
    [n] of them [Run] still waits: the counter is one ahead (the next
    instance is seeded), there is no stop reason and no signal. After the
    [n]-th [Run] returns nil: the counter is still [n] (nothing more was
    seeded), the stop reason is the one of the limit, the controller is
    closed, and the one signal sent has been received. *)
Theorem accepted_run_stops_at_limit cl pod n uid evs c1 c2 log :
  (0 < n ≤ int_max)%Z →
  Run_start (ready cl pod n : controller) uid [] = Ret (c1, None) →
  forallb is_BindCall evs = true →
  trials c1 [] evs = true →
  engine c1 evs = Ret (c2, log) → Forall (λ st, st = None) log →
  (Z.of_nat (length evs) ≤ n)%Z ∧
  length (Pods (status c2)) = length evs ∧
  ∃ c', status c' = status c2 ∧ simulated c' = simulated c2 ∧
    if decide (Z.of_nat (length evs) < n)%Z then
      Run (ready cl pod n : controller) uid [] evs = Ret (c', Waiting) ∧
      simulated c' = (Z.of_nat (length evs) + 1)%Z ∧
      StopReason (status c') = "" ∧ closed c' = false ∧ stop c' = make_chan
    else
      Run (ready cl pod n : controller) uid [] evs = Ret (c', Returned None) ∧
      simulated c' = n ∧ StopReason (status c') = LimitReached n ∧
      closed c' = true ∧ stop c' = Chan true 1 1 ∧ schedulers c' = Cancelled.
Proof.
  intros Hn Hs Hall Ht He Hlog.
  destruct (Run_start_bounded cl pod n uid [] Hn) as (c1' & e & Hs' & Hb & Hp & Hsim);
    [constructor|].
  rewrite Hs in Hs'. injection Hs' as <- <-.
  pose proof (Run_start_ready cl pod n uid _ _ Hs) as (_ & Hst & _ & Hc & Hstop & _).
  assert (accepting n [] c1) as Ha.
  { split; [done|]. rewrite Hc, Hst, Hsim, Hstop. by split_and!. }
  destruct (engine_accepting n evs [] c1 c2 log Hn Ha Hall Ht He Hlog)
    as (placed & [Hb2 Hrun] & Hlen).
  simpl in Hlen. rewrite Nat.add_0_r in Hlen.
  destruct Hb2 as (Hmax & Hl & Hopen & Hsim2 & Hlen2 & Hnd & Hsub).
  rewrite Hlen in Hlen2.
  unfold Run. rewrite Hs, bind_Ret, He, bind_Ret. simpl.
  destruct (closed c2) eqn:Hc2.
  - destruct Hrun as (Hpn & Hsn & Hreason & Hstop2).
    split; [lia|]. split; [done|].
    destruct (decide (Z.of_nat (length evs) < n)%Z); [lia|]. rewrite Hstop2. simpl.
    exists (set_stop (Chan true 1 1)
              (set_schedulers Cancelled (set_stop (Chan false 1 1) c2))).
    by split_and!.
  - destruct Hrun as (Hpn & Hreason & Hstop2).
    split; [lia|]. split; [done|].
    destruct (decide (Z.of_nat (length evs) < n)%Z); [|lia]. rewrite Hstop2. simpl.
    exists c2. split_and!; try done. lia.
Qed.

End run_facts.

(** ** The disk cache, further *)

Section disk_more_facts.

Context (sha1_hex : string → string) (path_Join : string → string → string).

#[local] Abbreviation fileOf d key := (cache.buildFileName sha1_hex path_Join d key).

(** What [Set] does to the files, whether or not it succeeds. *)
Lemma diskCache_Set_cases d key data fs :
  (fileOf d key ∈ cache.denied fs ∧
   cache.diskCache_Set sha1_hex path_Join d key data fs
     = (fs, Some "unable to create file: permission denied")) ∨
  ((fileOf d key ∉ cache.denied fs) ∧
   cache.diskCache_Set sha1_hex path_Join d key data fs
     = ({| cache.files := <[fileOf d key := data]> (cache.files fs);
           cache.directories := cache.directories fs;
           cache.denied := cache.denied fs |}, None)).
Proof.
  unfold cache.diskCache_Set, cache.os_Create, cache.file_Write.
  destruct (decide _) as [Hden|Hok]; [by left|]. right. split; [done|].
  simpl. rewrite lookup_insert_eq. simpl. by rewrite insert_insert_eq.
Qed.

Lemma diskCache_Get_file d key fs :
  fileOf d key ∉ cache.denied fs →
  cache.diskCache_Get sha1_hex path_Join d key fs =
    match cache.files fs !! fileOf d key with
    | Some data => inl data
    | None => inr "unable to open file: no such file or directory"
    end.
Proof.
  intros Hok. unfold cache.diskCache_Get, cache.os_Open, cache.ioutil_ReadAll.
  rewrite decide_False by done.
  destruct (cache.files fs !! fileOf d key) as [data|] eqn:Hfile.
  - rewrite decide_True by done. done.
  - rewrite decide_False by (by intros [? ?]). done.
Qed.

(** X11. The last write wins: after a [Set] on a key, a second [Set] on
    the same key succeeds too, and [Get] returns the data of the second,
    not the two one after the other. *)
Theorem diskCache_Set_overwrites d key data1 data2 fs fs1 :
  cache.diskCache_Set sha1_hex path_Join d key data1 fs = (fs1, None) →
  ∃ fs2,
    cache.diskCache_Set sha1_hex path_Join d key data2 fs1 = (fs2, None) ∧
    cache.diskCache_Get sha1_hex path_Join d key fs2 = inl data2.
Proof.
  intros Hset1.
  destruct (diskCache_Set_cases d key data1 fs) as [[_ H1]|[Hok H1]];
    rewrite H1 in Hset1; [done|]. injection Hset1 as <-.
  destruct (diskCache_Set_cases d key data2
              {| cache.files := <[fileOf d key := data1]> (cache.files fs);
                 cache.directories := cache.directories fs;
                 cache.denied := cache.denied fs |}) as [[Hden _]|[_ H2]]; [done|].
  eexists. split; [exact H2|].
  rewrite diskCache_Get_file by done. simpl. by rewrite lookup_insert_eq.
Qed.

(** X12. A [Set] on one key, failed or not, leaves the entries of the
    keys kept in other files as they were. *)
Theorem diskCache_Set_other_keys d key data fs fs' err key' :
  cache.diskCache_Set sha1_hex path_Join d key data fs = (fs', err) →
  fileOf d key' ≠ fileOf d key →
  cache.diskCache_Get sha1_hex path_Join d key' fs'
    = cache.diskCache_Get sha1_hex path_Join d key' fs.
Proof.
  intros Hset Hne.
  destruct (diskCache_Set_cases d key data fs) as [[_ H1]|[_ H1]];
    rewrite H1 in Hset; injection Hset as <- <-; [done|].
  unfold cache.diskCache_Get, cache.os_Open, cache.ioutil_ReadAll. simpl.
  by rewrite lookup_insert_ne.
Qed.

(** X13. The errors of the disk cache. [Get] on a key whose file is not
    there returns an error with the text [unable to open file: ], and so
    does [Get] on a file that may not be opened. [Set] on a file that may
    not be created returns an error with the text
    [unable to create file: ] and leaves every file as it was. *)
Theorem diskCache_errors d key fs :
  (cache.files fs !! fileOf d key = None →
   ∃ err, cache.diskCache_Get sha1_hex path_Join d key fs
            = inr ("unable to open file: " +:+ err)) ∧
  (fileOf d key ∈ cache.denied fs →
   cache.diskCache_Get sha1_hex path_Join d key fs
     = inr "unable to open file: permission denied" ∧
   ∀ data, cache.diskCache_Set sha1_hex path_Join d key data fs
             = (fs, Some "unable to create file: permission denied")).
Proof.
  split.
  - intros Hnone. destruct (decide (fileOf d key ∈ cache.denied fs)) as [Hden|Hok].
    + exists "permission denied".
      unfold cache.diskCache_Get, cache.os_Open. by rewrite decide_True.
    + exists "no such file or directory".
      rewrite diskCache_Get_file by done. by rewrite Hnone.
  - intros Hden. split.
    + unfold cache.diskCache_Get, cache.os_Open. by rewrite decide_True.
    + intros data.
      by destruct (diskCache_Set_cases d key data fs) as [[_ H1]|[Hok _]].
Qed.

(** X14. Opening the cache again keeps what it holds: when
    [NewDiskCache] succeeds, the cache is on the directory given and
    [Get] returns for every key what it returned before. *)
Theorem NewDiskCache_keeps_entries dir fs fs' d :
  cache.NewDiskCache dir fs = (fs', inl d) →
  cache.directory d = dir ∧
  dir ∈ cache.directories fs' ∧
  ∀ key, cache.diskCache_Get sha1_hex path_Join d key fs'
           = cache.diskCache_Get sha1_hex path_Join d key fs.
Proof.
  unfold cache.NewDiskCache, cache.os_MkdirAll.
  destruct (decide _) as [|Hok]; [done|]. intros [= <- <-]. simpl.
  split; [done|]. split; [set_solver|]. done.
Qed.

End disk_more_facts.

(** ** Syncing the resources *)

Section sync_facts.

Context `{Kinds}.
Context {C : Type} `{!Cluster C} `{!Objects C} {ReviewSpecRest ReviewStatus : Type}.
Context {A : Type} `{!APIServer A}.
Context {T W : Type} `{!cache.Cache T W}.
Context (json_Marshal : resources → list Byte.byte + error).
Context (json_Unmarshal : list Byte.byte → resources * option error).

#[local] Abbreviation controller := (ClusterCapacity C ReviewSpecRest ReviewStatus).

Implicit Types c : controller.

#[local] Arguments FillWithResources : simpl never.

Lemma copy_items_objects {X : Type} (create : C → X → C * option error) (text : string)
    (ctor : X → object) (items : list X) (cl : C) :
  (∀ cl item, create_object cl (ctor item) = with_text text (create cl item)) →
  copy_items create text items cl = create_all (ctor <$> items) cl.
Proof.
  intros Hctor. revert cl. induction items as [|item items IH]; intros cl; [done|].
  simpl. rewrite Hctor. unfold with_text.
  destruct (create cl item) as [cl' [err|]]; simpl; [done | apply IH].
Qed.

Lemma create_all_app (os1 os2 : list object) (cl : C) :
  create_all (os1 ++ os2) cl = and_then (create_all os1 cl) (create_all os2).
Proof.
  revert cl. induction os1 as [|o os1 IH]; intros cl; [done|].
  simpl. destruct (create_object cl o) as [cl' [err|]]; [done | apply IH].
Qed.

Lemma and_then_ext (r : C * option error) (k1 k2 : C → C * option error) :
  (∀ cl, k1 cl = k2 cl) → and_then r k1 = and_then r k2.
Proof. intros Hk. destruct r as [cl [err|]]; [done | apply Hk]. Qed.

(** X15. [FillWithResources] creates the objects one after the other,
    pods first, then nodes, services, claims, replication controllers,
    disruption budgets, replica sets, stateful sets and storage classes,
    each kind in the order of its list. It stops at the first object the
    store refuses, with the error text of that object's kind, and the
    objects after it are not created. Only the store of the controller
    changes; with no resources at all it returns nil. *)
Theorem FillWithResources_in_order c res :
  FillWithResources c res =
    (set_externalkubeclient (create_all (objects res) (externalkubeclient c)).1 c,
     (create_all (objects res) (externalkubeclient c)).2) ∧
  FillWithResources c resources_zero = (set_externalkubeclient (externalkubeclient c) c, None).
Proof.
  assert (∀ res', FillWithResources c res' =
    (set_externalkubeclient (create_all (objects res') (externalkubeclient c)).1 c,
     (create_all (objects res') (externalkubeclient c)).2)) as Heq.
  { intros res'. unfold FillWithResources, objects.
    match goal with |- (set_externalkubeclient ?r.1 c, _) = _ =>
      assert (r = create_all
                    ((PodObject <$> range (PodItems res')) ++
                     (NodeObject <$> range (NodeItems res')) ++
                     (ServiceObject <$> range (SVCItems res')) ++
                     (PersistentVolumeClaimObject <$> range (PVCItems res')) ++
                     (ReplicationControllerObject <$> range (RCItems res')) ++
                     (PodDisruptionBudgetObject <$> range (PDBItems res')) ++
                     (ReplicaSetObject <$> range (RSItems res')) ++
                     (StatefulSetObject <$> range (SSItems res')) ++
                     (StorageClassObject <$> range (SCItems res')))
                    (externalkubeclient c)) as -> end; [|done].
    rewrite create_all_app, (copy_items_objects _ _ PodObject) by done.
    apply and_then_ext; intros cl1.
    rewrite create_all_app, (copy_items_objects _ _ NodeObject) by done.
    apply and_then_ext; intros cl2.
    rewrite create_all_app, (copy_items_objects _ _ ServiceObject) by done.
    apply and_then_ext; intros cl3.
    rewrite create_all_app, (copy_items_objects _ _ PersistentVolumeClaimObject) by done.
    apply and_then_ext; intros cl4.
    rewrite create_all_app, (copy_items_objects _ _ ReplicationControllerObject) by done.
    apply and_then_ext; intros cl5.
    rewrite create_all_app, (copy_items_objects _ _ PodDisruptionBudgetObject) by done.
    apply and_then_ext; intros cl6.
    rewrite create_all_app, (copy_items_objects _ _ ReplicaSetObject) by done.
    apply and_then_ext; intros cl7.
    rewrite create_all_app, (copy_items_objects _ _ StatefulSetObject) by done.
    apply and_then_ext; intros cl8.
    by rewrite (copy_items_objects _ _ StorageClassObject). }
  split; [apply Heq|]. by rewrite Heq.
Qed.

(** X16. [getResourcesFromAPIServer] returns no error exactly when all
    nine lists are served, and the resources are then the nine lists as
    served, nil and empty lists told apart. *)
Theorem getResourcesFromAPIServer_ok_iff (client : A) res :
  getResourcesFromAPIServer client = (res, None) ↔
  pods_List client = inl (PodItems res) ∧
  nodes_List client = inl (NodeItems res) ∧
  services_List client = inl (SVCItems res) ∧
  persistentvolumeclaims_List client = inl (PVCItems res) ∧
  replicationcontrollers_List client = inl (RCItems res) ∧
  poddisruptionbudgets_List client = inl (PDBItems res) ∧
  replicasets_List client = inl (RSItems res) ∧
  statefulsets_List client = inl (SSItems res) ∧
  storageclasses_List client = inl (SCItems res).
Proof.
  split.
  - unfold getResourcesFromAPIServer.
    destruct (pods_List client); [|done].
    destruct (nodes_List client); [|done].
    destruct (services_List client); [|done].
    destruct (persistentvolumeclaims_List client); [|done].
    destruct (replicationcontrollers_List client); [|done].
    destruct (poddisruptionbudgets_List client); [|done].
    destruct (replicasets_List client); [|done].
    destruct (statefulsets_List client); [|done].
    destruct (storageclasses_List client); [|done].
    intros [= <-]. simpl. by split_and!.
  - intros (H1 & H2 & H3 & H4 & H5 & H6 & H7 & H8 & H9).
    unfold getResourcesFromAPIServer.
    rewrite H1, H2, H3, H4, H5, H6, H7, H8, H9. by destruct res.
Qed.

Lemma SyncResources_uses_cache_aux c (localCache : T) (client : A) (w : W) res :
  getResourcesFromCache json_Unmarshal localCache w = (res, None) →
  res ≠ resources_zero →
  SyncResources json_Marshal json_Unmarshal c localCache client false w =
    match FillWithResources c res with
    | (c', Some err) => (c', w, Some ("unable to fill with resources: " +:+ err))
    | (c', None) => (c', w, None)
    end.
Proof.
  intros Hcache Hres. unfold SyncResources. simpl. rewrite Hcache.
  unfold DeepEqual. rewrite bool_decide_eq_false_2 by done.
  by destruct (FillWithResources c res) as [c' [err|]].
Qed.

(** X17. With [refresh] off and a cache that holds resources other than
    the zero value, [SyncResources] fills the store from the cache: the
    cluster under analysis is not consulted (the result is the same for
    every client) and the cache is not written. *)
Theorem SyncResources_uses_cache c (localCache : T) (client : A) (w : W) res :
  getResourcesFromCache json_Unmarshal localCache w = (res, None) →
  res ≠ resources_zero →
  SyncResources json_Marshal json_Unmarshal c localCache client false w =
    match FillWithResources c res with
    | (c', Some err) => (c', w, Some ("unable to fill with resources: " +:+ err))
    | (c', None) => (c', w, None)
    end.
Proof. apply SyncResources_uses_cache_aux. Qed.

(** X18. When the cluster under analysis has to be listed (on [refresh],
    or when the cache gives an error or the zero value) and a list fails,
    [SyncResources] returns the error of the listing under the text
    [unable to list pods: ], whatever kind failed, and has touched
    neither the store nor the cache. *)
Theorem SyncResources_list_error c (localCache : T) (client : A) (refresh : bool) (w : W) err :
  refresh = true ∨
  (getResourcesFromCache json_Unmarshal localCache w).2 ≠ None ∨
  (getResourcesFromCache json_Unmarshal localCache w).1 = resources_zero →
  (getResourcesFromAPIServer client).2 = Some err →
  SyncResources json_Marshal json_Unmarshal c localCache client refresh w =
    (c, w, Some ("unable to list pods: " +:+ err)).
Proof.
  intros Hcase Hlist. unfold SyncResources.
  destruct (getResourcesFromAPIServer client) as [resUpdated lerr]. simpl in Hlist.
  subst lerr.
  destruct refresh; simpl; [done|].
  destruct (getResourcesFromCache json_Unmarshal localCache w) as [res [cerr|]];
    simpl in *.
  - by destruct (DeepEqual res resources_zero).
  - destruct Hcase as [?|[?| ->]]; try done;
      unfold DeepEqual; by rewrite bool_decide_eq_true_2.
Qed.

(** X19. What a sync with [refresh] leaves in the cache is what the next
    sync without [refresh] fills the store with. For a cache that gives
    back what was set and a codec that decodes what it encoded: when the
    listing returns resources other than the zero value and the sync
    succeeds, a later sync without [refresh], of any controller against
    any client, fills the store with exactly the resources listed, and
    leaves the cache as it is. *)
Theorem SyncResources_round_trip c (localCache : T) (client : A) (w w1 : W) c1 res :
  (∀ data w w', cache.Set_ localCache "resources" data w = (w', None) →
     cache.Get localCache "resources" w' = inl data) →
  (∀ data, json_Marshal res = inl data → json_Unmarshal data = (res, None)) →
  getResourcesFromAPIServer client = (res, None) →
  res ≠ resources_zero →
  SyncResources json_Marshal json_Unmarshal c localCache client true w = (c1, w1, None) →
  c1 = (FillWithResources c res).1 ∧
  ∀ c0 (client' : A),
    SyncResources json_Marshal json_Unmarshal c0 localCache client' false w1 =
      match FillWithResources c0 res with
      | (c', Some err) => (c', w1, Some ("unable to fill with resources: " +:+ err))
      | (c', None) => (c', w1, None)
      end.
Proof.
  intros Hcache Hjson Hlist Hres. unfold SyncResources at 1. cbn [negb].
  rewrite Hlist. unfold DeepEqual at 1.
  rewrite bool_decide_eq_false_2 by done. cbn [negb].
  destruct (FillWithResources c res) as [c' [err|]] eqn:Hfill; [done|].
  destruct (json_Marshal res) as [data|err] eqn:Hmarshal; [|done].
  destruct (cache.Set_ localCache "resources" data w) as [w' [err|]] eqn:Hset; [done|].
  intros [= <- <-]. split; [done|]. intros c0 client'.
  apply SyncResources_uses_cache_aux; [|done].
  unfold getResourcesFromCache.
  rewrite (Hcache data w w' Hset), (Hjson data eq_refl). done.
Qed.

End sync_facts.

(** ** The command *)

Lemma length_zero_iff_empty (s : string) : String.length s = 0 ↔ s = "".
Proof. by destruct s. Qed.

(** X20. [Validate] accepts exactly the options that name a pod spec file
    and, unless [CC_INCLUSTER] is set in the environment, a kubeconfig. A
    missing pod spec file is what is reported when both are missing. *)
Theorem Validate_accepts_iff (opt : app.ClusterCapacityOptions) (env : gmap string string) :
  (app.Validate opt env = None ↔
   app.PodSpecFile opt ≠ "" ∧
   (is_Some (env !! "CC_INCLUSTER") ∨ app.Kubeconfig opt ≠ "")) ∧
  (app.PodSpecFile opt = "" → app.Validate opt env = Some "Pod spec file is missing") ∧
  (app.PodSpecFile opt ≠ "" → env !! "CC_INCLUSTER" = None → app.Kubeconfig opt = "" →
   app.Validate opt env = Some "kubeconfig is missing").
Proof.
  unfold app.Validate.
  destruct (decide (app.PodSpecFile opt = "")) as [Hp|Hp].
  - rewrite bool_decide_eq_true_2 by (by apply length_zero_iff_empty).
    split_and!; [|done|done]. split; [done | by intros [? _]].
  - rewrite bool_decide_eq_false_2 by (by rewrite length_zero_iff_empty).
    destruct (env !! "CC_INCLUSTER") as [v|] eqn:Henv.
    + rewrite bool_decide_eq_true_2 by (by eexists). simpl.
      split_and!; [|done|done]. split; [|done].
      intros _. split; [done|]. left. by eexists.
    + rewrite bool_decide_eq_false_2 by (by intros [? ?]). simpl.
      destruct (decide (app.Kubeconfig opt = "")) as [Hk|Hk].
      * rewrite bool_decide_eq_true_2 by (by apply length_zero_iff_empty).
        split_and!; [|done|done]. split; [done|].
        intros [_ [[? ?]|?]]; done.
      * rewrite bool_decide_eq_false_2 by (by rewrite length_zero_iff_empty).
        split_and!; [|done|done]. split; [|done].
        intros _. split; [done|]. by right.
Qed.

Section app_facts.

Context `{Kinds}.
Context {C : Type} `{!Cluster C} `{!Objects C} {ReviewSpecRest ReviewStatus : Type}.
Context {A : Type} `{!APIServer A}.
Context {T W : Type} `{!cache.Cache T W}.
Context (json_Marshal : resources → list Byte.byte + error).
Context (json_Unmarshal : list Byte.byte → resources * option error).
Context (GetReport : list corev1.Pod → Status → ClusterCapacityReview ReviewSpecRest ReviewStatus).

#[local] Abbreviation controller := (ClusterCapacity C ReviewSpecRest ReviewStatus).

Implicit Types c : controller.

#[local] Arguments FillWithResources : simpl never.

(** The controller [SyncResources] hands back is the one it was given but
    for the store. *)
Lemma SyncResources_ready (localCache : T) (client : A) (refresh : bool) (w : W) pod n :
  ∃ cl, (SyncResources json_Marshal json_Unmarshal (New pod n : controller)
           localCache client refresh w).1.1 = ready cl pod n.
Proof.
  unfold SyncResources.
  repeat case_match; simplify_eq/=; try (by exists NewSimpleClientset);
    match goal with
    | Hf : FillWithResources _ _ = (?c', _) |- _ =>
        exists (externalkubeclient c');
        apply (f_equal fst) in Hf; simpl in Hf; rewrite <- Hf; reflexivity
    end.
Qed.

(** X21. [runSimulator] returns a report only from a run that has
    ended: the scheduler was created, the resources were synced, [Run]
    returned nil on a closed controller with a stop reason recorded and
    one signal received of the one or more sent, and the report is
    [GetReport] of the template alone and of the status of that
    controller, the final one, with the replicas set from the limit of
    the options. *)
Theorem runSimulator_report (s : app.ClusterCapacityConfig A T) scheduler_New uid early evs
    (w w' : W) r :
  app.runSimulator json_Marshal json_Unmarshal GetReport s scheduler_New uid early evs w
    = Ret (w', app.Reported r) →
  scheduler_New = None ∧
  (SyncResources json_Marshal json_Unmarshal
     (New (app.Pod s) (app.MaxLimit (app.Options s)) : controller)
     (app.Cache s) (app.KubeClient s) (app.Refresh (app.Options s)) w).2 = None ∧
  ∃ c' : controller,
    Run (SyncResources json_Marshal json_Unmarshal
           (New (app.Pod s) (app.MaxLimit (app.Options s)) : controller)
           (app.Cache s) (app.KubeClient s) (app.Refresh (app.Options s)) w).1.1
        uid early evs
      = Ret (c', Returned None) ∧
    w' = (SyncResources json_Marshal json_Unmarshal
            (New (app.Pod s) (app.MaxLimit (app.Options s)) : controller)
            (app.Cache s) (app.KubeClient s) (app.Refresh (app.Options s)) w).1.2 ∧
    closed c' = true ∧ StopReason (status c') ≠ "" ∧
    schedulers c' = Cancelled ∧
    ch_closed (stop c') = true ∧ ch_recv (stop c') = 1 ∧ 1 ≤ ch_sent (stop c') ∧
    r = set_Replicas (int32 (app.MaxLimit (app.Options s)))
          (GetReport [app.Pod s] (status c')).
Proof.
  unfold app.runSimulator. destruct scheduler_New; [done|].
  destruct (SyncResources_ready (app.Cache s) (app.KubeClient s)
              (app.Refresh (app.Options s)) w (app.Pod s) (app.MaxLimit (app.Options s)))
    as (cl & Hready).
  destruct (SyncResources _ _ _ _ _ _ _) as [[cc w1] [err|]]; [done|].
  simpl in Hready. subst cc.
  destruct (Run _ uid early evs) as [[c' rr]|] eqn:HR; [|done]. rewrite bind_Ret.
  destruct rr as [[err|]|]; [done| |done].
  pose proof (Run_same_config _ _ _ _ _ _ HR) as (Hrep & Htmpl & Hmax).
  pose proof (Run_cases _ _ _ _ _ _ _ _ HR)
    as (_ & Hc & Hreason & Hstop & Hrecv & Hsent & Hsch & _).
  unfold Report. rewrite Hrep. simpl. rewrite Htmpl, Hmax. simpl.
  intros [= <- <-]. split; [done|]. split; [done|].
  exists c'. by split_and!.
Qed.

End app_facts.

(** ** The further properties at work *)

Import inventory.


(** Limit 3, two accepted binds. *)
Lemma placements_are_running_witness :
  Forall (λ p, corev1.Phase (corev1.Status p) = corev1.PodRunning)
    (Pods (status (after 3 [bind 0; bind 1]))).
Proof.
  apply (placements_are_running memcluster.one_node memcluster.web 3 "uid-0" []
           [bind 0; bind 1] (after 3 []) (after 3 [bind 0; bind 1]) [None; None]);
    vm_compute; reflexivity.
Defined.

(** Limit 1, one accepted bind: [Run] returns nil. *)
Lemma Run_results_witness :
  let c' := set_stop (Chan true 1 1) (set_schedulers Cancelled (after 1 [bind 0])) in
  (∃ c1, Run_start (ready memcluster.one_node memcluster.web 1
                      : ClusterCapacity memcluster.store unit (list corev1.Pod * Status))
           "uid-0" [] = Ret (c1, None)) ∧
  closed c' = true ∧ StopReason (status c') ≠ "" ∧
  ch_closed (stop c') = true ∧ ch_recv (stop c') = 1 ∧ 1 ≤ ch_sent (stop c') ∧
  schedulers c' = Cancelled ∧
  schedulerCh c' = Chan true 0 0 ∧ informerStopCh c' = Chan true 0 0.
Proof.
  intros c'.
  apply (Run_results (ReviewSpecRest:=unit)
           (ReviewStatus:=(list corev1.Pod * Status)%type)
           memcluster.one_node memcluster.web 1 "uid-0" [] [bind 0] c' (Returned None)).
  vm_compute; reflexivity.
Defined.

(** No limit, instance 0 rejected twice: two signals, [Run] returns nil
    and the second sender is left to panic. *)
Lemma parked_sender_iff_two_signals_witness :
  ∃ c', Run (controller memcluster.one_node 0) "uid-0" [] [reject 0 "a"; reject 0 "b"]
          = Ret (c', Returned None) ∧
    parked_sender (stop c') = Some "send on closed channel".
Proof.
  destruct (parked_sender_iff_two_signals (ReviewSpecRest:=unit)
              (ReviewStatus:=(list corev1.Pod * Status)%type)
              memcluster.one_node memcluster.web 0 "uid-0" []
              [reject 0 "a"; reject 0 "b"] (after 0 [])
              (after 0 [reject 0 "a"; reject 0 "b"]) [])
    as (c' & r & HR & Hnil & _ & _ & _ & Hpark).
  - vm_compute; reflexivity.
  - vm_compute; reflexivity.
  - assert (r = Returned None) as Hr by (apply Hnil; vm_compute; lia).
    exists c'. split; [rewrite <- Hr; exact HR|]. apply Hpark. vm_compute. lia.
Defined.

(** The engine binds a pod the store does not have, then instance 0. *)
Lemma Bind_lookup_error_transparent_witness :
  engine (after 3 [])
    [BindCall (corev1.set_Name "web-9" memcluster.web) "node-1" "uid-9"; bind 0]
  = Ret (after 3 [bind 0],
         [Some (schedframework.NewStatus schedframework.Error
                  "Unable to bind: pods web-9 not found"); None]).
Proof.
  destruct (Bind_lookup_error_transparent (after 3 [])
              (corev1.set_Name "web-9" memcluster.web) "node-1" "default-scheduler" "uid-9"
              "pods web-9 not found") as [_ Hrest].
  - vm_compute; reflexivity.
  - rewrite (Hrest [bind 0]). vm_compute; reflexivity.
Defined.

(** No limit, two accepted binds: [Run] still waits. *)
Lemma unlimited_run_keeps_going_witness :
  ∃ c', Run (controller memcluster.one_node 0) "uid-0" [] [bind 0; bind 1]
          = Ret (c', Waiting) ∧
    length (Pods (status c')) = 2 ∧ simulated c' = 3%Z.
Proof.
  destruct (unlimited_run_keeps_going (ReviewSpecRest:=unit)
              (ReviewStatus:=(list corev1.Pod * Status)%type)
              memcluster.one_node memcluster.web 0 "uid-0" [bind 0; bind 1])
    as (c' & HR & Hlen & Hsim & _).
  - lia.
  - unfold int_max. simpl. lia.
  - exists (after 0 []), (after 0 [bind 0; bind 1]), [None; None].
    split; [reflexivity|]. split; [vm_compute; reflexivity|].
    split; [vm_compute; reflexivity|]. repeat constructor.
  - exists c'. split; [exact HR|]. split; [exact Hlen | exact Hsim].
Defined.

(** No limit: one accepted bind, then instance 1 is rejected for lack of
    cpu. *)
Lemma rejection_stops_run_witness :
  ∃ c', Run (controller memcluster.one_node 0) "uid-0" []
          ([bind 0] ++ [reject 1 "Insufficient cpu"]) = Ret (c', Returned None) ∧
    Pods (status c') = Pods (status (after 0 [bind 0])) ∧
    StopReason (status c') = "Unschedulable: Insufficient cpu".
Proof.
  apply (rejection_stops_run (ReviewSpecRest:=unit)
           (ReviewStatus:=(list corev1.Pod * Status)%type)
           memcluster.one_node memcluster.web 0 "uid-0" [] [bind 0]
           (after 0 []) (after 0 [bind 0]) [None]
           (rejected 1 "") (rejected 1 "Insufficient cpu")
           (unschedulable "Insufficient cpu")); vm_compute; reflexivity.
Defined.

(** Instance 0 of the template web. *)
Lemma seeded_instance_is_watched_witness :
  FilterFunc corev1.DefaultSchedulerName
    (default memcluster.web
       (lastSimulatedPod (nextPod (controller memcluster.one_node 3) "uid-0").1)) = true ∧
  metav1.HasAnnotation
    (corev1.ObjectMeta
       (default memcluster.web
          (lastSimulatedPod (nextPod (controller memcluster.one_node 3) "uid-0").1)))
    podProvisioner = true.
Proof.
  destruct (seeded_instance_is_watched (controller memcluster.one_node 3) "uid-0"
              (default memcluster.web
                 (lastSimulatedPod (nextPod (controller memcluster.one_node 3) "uid-0").1)))
    as (Hf & Hann & _).
  - vm_compute; reflexivity.
  - split; [exact Hf | exact Hann].
Defined.

(** An unschedulable pod of another scheduler. *)
Lemma OnUpdate_inert_witness :
  OnUpdate (after 3 []) corev1.DefaultSchedulerName
    (corev1.with_Status
       {| corev1.Phase := "Pending"; corev1.Conditions := [unschedulable "no node"] |}
       memcluster.web)
    (corev1.with_Status
       {| corev1.Phase := "Pending"; corev1.Conditions := [unschedulable "no node"] |}
       memcluster.web)
  = Ret (after 3 []).
Proof. apply OnUpdate_inert. left. vm_compute; reflexivity. Defined.

(** The name of instance 1 is taken: the bind of instance 0 is recorded
    and reported as an error. *)
Lemma Bind_seed_error_keeps_placement_witness :
  let c := (nextPod (set_schedulers Running
                       (set_informersStarted true (controller inventory.taken_next 3)))
              "uid-0").1 in
  let pod := default memcluster.web (lastSimulatedPod c) in
  let placed :=
    corev1.set_Phase corev1.PodRunning (corev1.set_NodeName "node-1" (corev1.DeepCopy pod)) in
  let c' :=
    (nextPod (append_Pods placed
                (set_externalkubeclient (strategy_Add (externalkubeclient c) placed).1 c))
       "uid-1").1 in
  Bind c (corev1.set_Name "web-0" memcluster.web) "node-1" "default-scheduler" "uid-1"
    = Ret (c', Some (schedframework.NewStatus schedframework.Error
                       ("Unable to create next pod to schedule: "
                          +:+ "pods web-1 already exists"))) ∧
  Pods (status c') = Pods (status c) ++ [placed] ∧
  simulated c' = int_add (simulated c) 1.
Proof.
  intros c pod placed c'.
  destruct (Bind_seed_error_keeps_placement c
              (corev1.set_Name "web-0" memcluster.web) "node-1" "default-scheduler" "uid-1"
              pod (strategy_Add (externalkubeclient c) placed).1 c'
              "pods web-1 already exists") as (HB & HP & Hsim & _).
  - vm_compute; reflexivity.
  - vm_compute; reflexivity.
  - intros [_ Hle]. vm_compute in Hle. apply Hle. reflexivity.
  - vm_compute; reflexivity.
  - split; [exact HB|]. split; [exact HP | exact Hsim].
Defined.


(** Limit 2, two accepted binds: the second stops the run. *)
Lemma accepted_run_stops_at_limit_witness :
  ∃ c', Run (controller memcluster.one_node 2) "uid-0" [] [bind 0; bind 1]
          = Ret (c', Returned None) ∧
    length (Pods (status c')) = 2 ∧ simulated c' = 2%Z ∧
    StopReason (status c') = "LimitReached: Maximum number of pods simulated: 2" ∧
    stop c' = Chan true 1 1.
Proof.
  destruct (accepted_run_stops_at_limit (ReviewSpecRest:=unit)
              (ReviewStatus:=(list corev1.Pod * Status)%type)
              memcluster.one_node memcluster.web 2 "uid-0" [bind 0; bind 1]
              (after 2 []) (after 2 [bind 0; bind 1]) [None; None])
    as (_ & Hlen & c' & Hst & _ & Hrun).
  - unfold int_max. lia.
  - vm_compute; reflexivity.
  - reflexivity.
  - vm_compute; reflexivity.
  - vm_compute; reflexivity.
  - repeat constructor.
  - destruct (decide (Z.of_nat (length [bind 0; bind 1]) < 2)%Z) as [Hlt|_] in Hrun;
      [simpl in Hlt; lia|].
    destruct Hrun as (HR & Hsim & Hreason & _ & Hstop & _).
    exists c'. split; [exact HR|]. rewrite Hst. split; [exact Hlen|].
    split; [exact Hsim|]. split; [|exact Hstop].
    rewrite <- Hst, Hreason. vm_compute; reflexivity.
Defined.

(** The cached resources are written a second time. *)
Lemma diskCache_Set_overwrites_witness :
  ∃ fs2,
    cache.diskCache_Set hash join tmp "resources" [Byte.x5b; Byte.x5d] cached = (fs2, None) ∧
    cache.diskCache_Get hash join tmp "resources" fs2 = inl [Byte.x5b; Byte.x5d].
Proof.
  apply (diskCache_Set_overwrites hash join tmp "resources" bytes [Byte.x5b; Byte.x5d]
           disk cached).
  vm_compute; reflexivity.
Defined.

(** Another key is set beside the cached resources. *)
Lemma diskCache_Set_other_keys_witness :
  cache.diskCache_Get hash join tmp "resources"
    (cache.diskCache_Set hash join tmp "metrics" bytes cached).1
  = cache.diskCache_Get hash join tmp "resources" cached.
Proof.
  apply (diskCache_Set_other_keys hash join tmp "metrics" bytes cached
           (cache.diskCache_Set hash join tmp "metrics" bytes cached).1 None "resources").
  - vm_compute; reflexivity.
  - vm_compute. discriminate.
Defined.

(** A key that was never set, beside the cached resources. *)
Lemma diskCache_errors_witness :
  ∃ err, cache.diskCache_Get hash join tmp "metrics" cached
           = inr ("unable to open file: " +:+ err).
Proof.
  destruct (diskCache_errors hash join tmp "metrics" cached) as [Hget _].
  apply Hget. vm_compute; reflexivity.
Defined.

(** The cache directory is opened again over the cached resources. *)
Lemma NewDiskCache_keeps_entries_witness :
  cache.diskCache_Get hash join tmp "resources" (cache.NewDiskCache "/tmp/cc" cached).1
  = cache.diskCache_Get hash join tmp "resources" cached.
Proof.
  destruct (NewDiskCache_keeps_entries hash join "/tmp/cc" cached
              (cache.NewDiskCache "/tmp/cc" cached).1 tmp) as (_ & _ & Hkeep).
  - vm_compute; reflexivity.
  - apply Hkeep.
Defined.

(** The cluster of one node is listed. *)
Lemma getResourcesFromAPIServer_ok_iff_witness :
  getResourcesFromAPIServer (serving listed) = (listed, None).
Proof. apply getResourcesFromAPIServer_ok_iff. by split_and!. Defined.

(** The cache is used although the cluster cannot be reached. *)
Lemma SyncResources_uses_cache_witness :
  SyncResources encode decode (new 3) tmp unreachable false cached =
    ((FillWithResources (new 3) listed).1, cached, None).
Proof.
  rewrite (SyncResources_uses_cache encode decode (new 3) tmp unreachable cached listed).
  - vm_compute; reflexivity.
  - vm_compute; reflexivity.
  - unfold listed, resources_zero. intros [=].
Defined.

(** The nodes cannot be listed. *)
Lemma SyncResources_list_error_witness :
  SyncResources encode decode (new 3) tmp unreachable true disk =
    (new 3, disk, Some "unable to list pods: unable to list nodes: connection refused").
Proof.
  apply (SyncResources_list_error encode decode (new 3) tmp unreachable true disk
           "unable to list nodes: connection refused").
  - by left.
  - vm_compute; reflexivity.
Defined.

(** A sync with refresh on an empty cache, then one without against a
    cluster that cannot be reached. *)
Lemma SyncResources_round_trip_witness :
  SyncResources encode decode (new 5) tmp unreachable false
    (SyncResources encode decode (new 3) tmp (serving listed) true disk).1.2
  = ((FillWithResources (new 5) listed).1,
     (SyncResources encode decode (new 3) tmp (serving listed) true disk).1.2, None).
Proof.
  destruct (SyncResources_round_trip encode decode (new 3) tmp (serving listed) disk
              (SyncResources encode decode (new 3) tmp (serving listed) true disk).1.2
              (SyncResources encode decode (new 3) tmp (serving listed) true disk).1.1
              listed) as [_ Hnext].
  - intros data w w' Hset. simpl in *.
    apply diskCache_Set_files in Hset as [Hok Hfile].
    unfold cache.diskCache_Get, cache.os_Open, cache.ioutil_ReadAll.
    rewrite decide_False by done. rewrite decide_True by (by rewrite Hfile).
    by rewrite Hfile.
  - intros data Henc. vm_compute in Henc. injection Henc as <-. vm_compute; reflexivity.
  - vm_compute; reflexivity.
  - unfold listed, resources_zero. intros [=].
  - vm_compute; reflexivity.
  - rewrite (Hnext (new 5) unreachable). vm_compute; reflexivity.
Defined.

(** A pod spec file and a kubeconfig are given. *)
Lemma Validate_accepts_iff_witness : app.Validate (options 1) ∅ = None.
Proof.
  destruct (Validate_accepts_iff (options 1) ∅) as [Hiff _].
  apply Hiff. split; [discriminate|]. right. discriminate.
Defined.

(** Limit 1 over the listed cluster: the report of the one placement. *)
Lemma runSimulator_report_witness :
  let run :=
    app.runSimulator encode decode example.GetReport (config 1) None "uid-0" [] [bind 0]
      disk in
  let w' := match run with Ret (w', _) => w' | Panic _ => disk end in
  let r :=
    match run with
    | Ret (_, app.Reported r) => r
    | _ => example.GetReport [] {| Pods := []; StopReason := "" |}
    end in
  run = Ret (w', app.Reported r) ∧
  ∃ c' : ClusterCapacity store unit (list corev1.Pod * Status),
    closed c' = true ∧ StopReason (status c') ≠ "" ∧
    r = set_Replicas (int32 1) (example.GetReport [memcluster.web] (status c')).
Proof.
  intros run w' r.
  assert (run = Ret (w', app.Reported r)) as Hrun by (vm_compute; reflexivity).
  split; [exact Hrun|].
  destruct (runSimulator_report (C:=store) encode decode example.GetReport
              (config 1) None "uid-0" [] [bind 0] disk w' r Hrun)
    as (_ & _ & c' & _ & _ & Hc & Hreason & _ & _ & _ & _ & Hr).
  exists c'. split; [exact Hc|]. split; [exact Hreason | exact Hr].
Defined.
